(** * OneSR: the enlarged sampler and the loss utilities

    A shallow embedding of [onesr/data/data_sampler.py] and
    [onesr/losses/loss_util.py].  Python integers are [Z], Python lists are
    [list], a raised exception is the [Raise] branch of [result]; the true
    division of two integers is the quotient rounded to binary64.  The tensor
    framework (oneflow) is not part of the repository: its random permutation
    is taken through the interface [FlowRandom], its scalar arithmetic through
    the interface [Scalar], and its shape rules are written out. *)

From Stdlib Require Import ZArith List String Bool Lia Permutation.
From Stdlib Require Import QArith Qabs FinFun.
Import ListNotations.
Open Scope Z_scope.

(* ================================================================= *)
(** * Python results *)

Inductive exn : Type :=
| ValueError
| NameError
| IndexError
| AssertionError
| ZeroDivisionError
| OverflowError
| RuntimeError.

Inductive result (A : Type) : Type :=
| Ok (a : A)
| Raise (e : exn).

Arguments Ok {A} a.
Arguments Raise {A} e.

Definition bind {A B : Type} (c : result A) (k : A -> result B) : result B :=
  match c with
  | Ok a => k a
  | Raise e => Raise e
  end.

Notation "x <- c ;; k" := (bind c (fun x => k))
  (at level 61, c at next level, right associativity).

(** [assert b] *)
Definition py_assert (b : bool) : result unit :=
  if b then Ok tt else Raise AssertionError.

(** [len(l)] *)
Definition len {A : Type} (l : list A) : Z := Z.of_nat (List.length l).

(** [range(n)] as a list *)
Definition zrange (n : Z) : list Z := map Z.of_nat (seq 0 (Z.to_nat n)).

(* ================================================================= *)
(** * Python list slicing, [l[start:stop:step]] with three integers *)

Module PyList.

(** One bound of a slice, adjusted against the length as CPython does:
    a negative bound counts from the end, and what is still out of range is
    clamped to [lo] (below) or [hi] (above). *)
Definition adjust (n lo hi i : Z) : Z :=
  if i <? 0 then
    (let i' := i + n in if i' <? 0 then lo else i')
  else if n <=? i then hi
  else i.

(** The positions a slice selects, in order. *)
Definition slice_positions (n start stop step : Z) : result (list Z) :=
  if step =? 0 then Raise ValueError
  else if 0 <? step then
    let a := adjust n 0 n start in
    let b := adjust n 0 n stop in
    let count := if a <? b then (b - a - 1) / step + 1 else 0 in
    Ok (map (fun j => a + j * step) (zrange count))
  else
    let a := adjust n (-1) (n - 1) start in
    let b := adjust n (-1) (n - 1) stop in
    let count := if b <? a then (a - b - 1) / (- step) + 1 else 0 in
    Ok (map (fun j => a + j * step) (zrange count)).

Definition pick {A : Type} (l : list A) (p : Z) : list A :=
  if p <? 0 then []
  else match nth_error l (Z.to_nat p) with
       | Some x => [x]
       | None => []
       end.

Definition getslice {A : Type} (l : list A) (start stop step : Z)
  : result (list A) :=
  ps <- slice_positions (len l) start stop step ;;
  Ok (flat_map (pick l) ps).

End PyList.

(* ================================================================= *)
(** * The random generator of the framework

    [flow.Generator()] builds a generator whose first state the program does
    not choose; [g.manual_seed(s)] reseeds it; [flow.randperm(n, generator=g)]
    draws a permutation of [0, n) from it. *)

Class FlowRandom : Type := {
  Generator : Type;
  manual_seed : Generator -> Z -> Generator;
  randperm_draw : nat -> Generator -> list Z
}.

(** [flow.randperm(n, generator=g).tolist()]: a negative [n] is refused. *)
Definition randperm `{FlowRandom} (n : Z) (g : Generator) : result (list Z) :=
  if n <? 0 then Raise RuntimeError
  else Ok (randperm_draw (Z.to_nat n) g).

(* ================================================================= *)
(** * Python's true division of integers, and [math.ceil]

    [a / b] on two Python integers is the exact quotient rounded once to
    binary64: to the nearest number of 53 significant bits and exponent at
    least -1074, ties to the even one.  A quotient too small for that is
    0.0; a rounded quotient of 2^1024 or more is an OverflowError. *)

Module PyFloat.

(** A finite binary64 number, [mant * 2 ^ expo]. *)
Record float : Type := mkFloat {
  mant : Z;
  expo : Z
}.

(** [n / d] rounded to the nearest integer, ties to even, for [n >= 0]
    and [d > 0]. *)
Definition round_half_even (n d : Z) : Z :=
  let q := n / d in
  let r := n mod d in
  if 2 * r <? d then q
  else if d <? 2 * r then q + 1
  else if Z.even q then q else q + 1.

(** [floor (log2 (a / b))] for [a > 0] and [b > 0]. *)
Definition quotient_log2 (a b : Z) : Z :=
  let d := Z.log2 a - Z.log2 b in
  if b * 2 ^ Z.max 0 d <=? a * 2 ^ Z.max 0 (- d) then d else d - 1.

(** [a / b] *)
Definition int_true_divide (a b : Z) : result float :=
  if b =? 0 then Raise ZeroDivisionError
  else if a =? 0 then Ok (mkFloat 0 0)
  else
    let e := Z.max (quotient_log2 (Z.abs a) (Z.abs b) - 52) (-1074) in
    let m := round_half_even (Z.abs a * 2 ^ Z.max 0 (- e))
                             (Z.abs b * 2 ^ Z.max 0 e) in
    if (0 <=? e) && (2 ^ 1024 <=? m * 2 ^ e) then Raise OverflowError
    else Ok (mkFloat (Z.sgn a * Z.sgn b * m) e).

(** [math.ceil(x)] *)
Definition math_ceil (x : float) : Z :=
  if 0 <=? expo x then mant x * 2 ^ expo x
  else - ((- mant x) / 2 ^ (- expo x)).

End PyFloat.

(* ================================================================= *)
(** * data_sampler.py *)

Module DataSampler.

(** [math.ceil(a / b)] on two integers. *)
Definition ceil_div (a b : Z) : result Z :=
  q <- PyFloat.int_true_divide a b ;;
  Ok (PyFloat.math_ceil q).

(** [[v % m for v in l]] *)
Definition mod_each (l : list Z) (m : Z) : result (list Z) :=
  match l with
  | [] => Ok []
  | _ :: _ => if m =? 0 then Raise ZeroDivisionError
              else Ok (map (fun v => v mod m) l)
  end.

Record EnlargedSampler (A : Type) : Type := mkSampler {
  dataset : list A;
  num_replicas : Z;
  rank : Z;
  epoch : Z;
  num_samples : Z;
  total_size : Z
}.

Arguments mkSampler {A}.
Arguments dataset {A}.
Arguments num_replicas {A}.
Arguments rank {A}.
Arguments epoch {A}.
Arguments num_samples {A}.
Arguments total_size {A}.

Definition __init__ {A : Type} (dataset : list A) (num_replicas rank : Z)
  (ratio : Z) : result (EnlargedSampler A) :=
  num_samples <- ceil_div (len dataset * ratio) num_replicas ;;
  Ok (mkSampler dataset num_replicas rank 0 num_samples
        (num_samples * num_replicas)).

(** [g0] is the generator [flow.Generator()] hands back. *)
Definition __iter__ `{FlowRandom} {A : Type} (self : EnlargedSampler A)
  (g0 : Generator) : result (list Z) :=
  let g := manual_seed g0 (epoch self) in
  indices <- randperm (total_size self) g ;;
  let dataset_size := len (dataset self) in
  indices <- mod_each indices dataset_size ;;
  indices <- PyList.getslice indices (rank self) (total_size self)
               (num_replicas self) ;;
  _ <- py_assert (len indices =? num_samples self) ;;
  Ok indices.

Definition __len__ {A : Type} (self : EnlargedSampler A) : Z :=
  num_samples self.

Definition set_epoch {A : Type} (self : EnlargedSampler A) (e : Z)
  : EnlargedSampler A :=
  mkSampler (dataset self) (num_replicas self) (rank self) e
    (num_samples self) (total_size self).

End DataSampler.

(** A concrete generator: the state is the seed, and a draw lists [0, n)
    upwards for an even state and downwards for an odd one. *)
#[export] Instance ParityRandom : FlowRandom := {
  Generator := Z;
  manual_seed := fun _ s => s;
  randperm_draw := fun n g =>
    if Z.even g then map Z.of_nat (seq 0 n) else rev (map Z.of_nat (seq 0 n))
}.

(* ================================================================= *)
(** * Scalars and tensors of the framework *)

(** The arithmetic of a tensor element type.  [rof_nat] converts a Python
    integer that meets a tensor in an operation; [rroot5 x] is
    [x ** (1 / 5)]. *)
Class Scalar (R : Type) : Type := {
  rzero : R;
  radd : R -> R -> R;
  rsub : R -> R -> R;
  rmul : R -> R -> R;
  rdiv : R -> R -> R;
  rabs : R -> R;
  rltb : R -> R -> bool;
  rof_nat : nat -> R;
  rroot5 : R -> R
}.

Module Flow.

Local Open Scope nat_scope.

(** A tensor: its shape and its elements in row-major order. *)
Record Tensor (E : Type) : Type := mkTensor {
  shape : list nat;
  data : list E
}.

Arguments mkTensor {E}.
Arguments shape {E}.
Arguments data {E}.

Definition numel (s : list nat) : nat := fold_right Nat.mul 1 s.

(** All the indices of a shape, in row-major order. *)
Fixpoint indices (s : list nat) : list (list nat) :=
  match s with
  | [] => [[]]
  | n :: s' => flat_map (fun i => map (cons i) (indices s')) (seq 0 n)
  end.

(** The offset of an index in the row-major layout. *)
Fixpoint ravel (s idx : list nat) : nat :=
  match s, idx with
  | _ :: s', i :: idx' => i * numel s' + ravel s' idx'
  | _, _ => 0
  end.

Definition item {E : Type} (dflt : E) (t : Tensor E) (idx : list nat) : E :=
  nth (ravel (shape t) idx) (data t) dflt.

Definition tabulate {E : Type} (s : list nat) (f : list nat -> E)
  : Tensor E :=
  mkTensor s (map f (indices s)).

(** [t.dim()] *)
Definition dim {E : Type} (t : Tensor E) : nat := List.length (shape t).

(** [t.size(i)] for [i >= 0] *)
Definition size {E : Type} (t : Tensor E) (i : nat) : result nat :=
  match nth_error (shape t) i with
  | Some n => Ok n
  | None => Raise IndexError
  end.

(** A dimension argument that may count from the end. *)
Definition norm_dim (rank : nat) (d : Z) : result nat :=
  if ((- Z.of_nat rank <=? d) && (d <? Z.of_nat rank))%Z
  then Ok (Z.to_nat (d mod Z.of_nat rank))
  else Raise IndexError.

Fixpoint norm_dims (rank : nat) (ds : list Z) : result (list nat) :=
  match ds with
  | [] => Ok []
  | d :: ds' =>
      n <- norm_dim rank d ;;
      ns <- norm_dims rank ds' ;;
      Ok (n :: ns)
  end.

(** ** Broadcasting *)

Fixpoint broadcast_aligned (s1 s2 : list nat) : result (list nat) :=
  match s1, s2 with
  | [], [] => Ok []
  | a :: s1', b :: s2' =>
      rest <- broadcast_aligned s1' s2' ;;
      if a =? b then Ok (a :: rest)
      else if a =? 1 then Ok (b :: rest)
      else if b =? 1 then Ok (a :: rest)
      else Raise RuntimeError
  | _, _ => Raise RuntimeError
  end.

Definition left_pad (n : nat) (s : list nat) : list nat :=
  repeat 1 (n - List.length s) ++ s.

Definition broadcast_shapes (s1 s2 : list nat) : result (list nat) :=
  let n := Nat.max (List.length s1) (List.length s2) in
  broadcast_aligned (left_pad n s1) (left_pad n s2).

(** The index of an operand that an index of the broadcast result reads. *)
Definition bcast_index (s idx : list nat) : list nat :=
  map (fun ni => if fst ni =? 1 then 0 else snd ni)
    (combine s (skipn (List.length idx - List.length s) idx)).

Definition zip_with {A B C : Type} (f : A -> B -> C) (da : A) (db : B)
  (ta : Tensor A) (tb : Tensor B) : result (Tensor C) :=
  s <- broadcast_shapes (shape ta) (shape tb) ;;
  Ok (tabulate s (fun idx =>
        f (item da ta (bcast_index (shape ta) idx))
          (item db tb (bcast_index (shape tb) idx)))).

Definition tmap {A B : Type} (f : A -> B) (t : Tensor A) : Tensor B :=
  mkTensor (shape t) (map f (data t)).

(** ** Reductions *)

Section WithScalar.

Context {R : Type} {SR : Scalar R}.

Definition sum_list (l : list R) : R := fold_left radd l rzero.

Definition mean_list (l : list R) : R :=
  rdiv (sum_list l) (rof_nat (List.length l)).

(** The unbiased variance: the squared deviations summed and divided by
    [n - 1]. *)
Definition var_list (l : list R) : R :=
  let m := mean_list l in
  rdiv (sum_list (map (fun x => rmul (rsub x m) (rsub x m)) l))
       (rof_nat (List.length l - 1)).

(** [a * b], [a - b], [a / b], [a < b] *)
Definition tmul : Tensor R -> Tensor R -> result (Tensor R) :=
  zip_with rmul rzero rzero.
Definition tsub : Tensor R -> Tensor R -> result (Tensor R) :=
  zip_with rsub rzero rzero.
Definition tdiv : Tensor R -> Tensor R -> result (Tensor R) :=
  zip_with rdiv rzero rzero.
Definition tlt : Tensor R -> Tensor R -> result (Tensor bool) :=
  zip_with rltb rzero rzero.

(** [t * n] for a Python integer [n] *)
Definition tmul_int (t : Tensor R) (n : nat) : Tensor R :=
  tmap (fun x => rmul x (rof_nat n)) t.

(** [t.abs()], [t ** (1 / 5)] *)
Definition tabs (t : Tensor R) : Tensor R := tmap rabs t.
Definition troot5 (t : Tensor R) : Tensor R := tmap rroot5 t.

(** [t.sum()] and [t.mean()]: a tensor of no dimension. *)
Definition tsum (t : Tensor R) : Tensor R := mkTensor [] [sum_list (data t)].
Definition tmean (t : Tensor R) : Tensor R :=
  mkTensor [] [mean_list (data t)].

Definition in_dims (dims : list nat) (i : nat) : bool :=
  existsb (Nat.eqb i) dims.

Definition kept_shape (dims s : list nat) : list nat :=
  map (fun ni => if in_dims dims (fst ni) then 1 else snd ni)
    (combine (seq 0 (List.length s)) s).

Definition reduced_shape (dims s : list nat) : list nat :=
  map (fun ni => if in_dims dims (fst ni) then snd ni else 1)
    (combine (seq 0 (List.length s)) s).

Definition add_index (a b : list nat) : list nat :=
  map (fun xy => fst xy + snd xy) (combine a b).

(** A reduction over the dimensions [dims] with [keepdim=True]. *)
Definition reduce_keepdim (f : list R -> R) (dims : list nat)
  (t : Tensor R) : Tensor R :=
  tabulate (kept_shape dims (shape t))
    (fun idx => f (map (fun sub => item rzero t (add_index idx sub))
                     (indices (reduced_shape dims (shape t))))).

(** [flow.sum(t, d, keepdim=True)] *)
Definition sum_dim (t : Tensor R) (d : Z) : result (Tensor R) :=
  n <- norm_dim (dim t) d ;;
  Ok (reduce_keepdim sum_list [n] t).

(** [flow.var(t, dim=ds, unbiased=True, keepdim=True)] *)
Definition var_dims (t : Tensor R) (ds : list Z) : result (Tensor R) :=
  ns <- norm_dims (dim t) ds ;;
  Ok (reduce_keepdim var_list ns t).

(** ** Padding, windows, squeezing, masked assignment *)

(** Where position [i] of a side padded by [p] on both ends reads a side of
    [n] elements, by reflection. *)
Definition reflect (n p i : nat) : nat :=
  if i <? p then p - i
  else if i <? p + n then i - p
  else 2 * (n - 1) - (i - p).

(** [F.pad(t, pad=[p, p, p, p], mode="reflect")] on a tensor of four
    dimensions; the padding must be smaller than the sides it extends. *)
Definition pad_reflect (t : Tensor R) (p : nat) : result (Tensor R) :=
  match shape t with
  | [b; c; h; w] =>
      if (p <? h) && (p <? w) then
        Ok (tabulate [b; c; h + 2 * p; w + 2 * p]
              (fun idx =>
                 match idx with
                 | [ib; ic; i; j] =>
                     item rzero t [ib; ic; reflect h p i; reflect w p j]
                 | _ => rzero
                 end))
      else Raise RuntimeError
  | _ => Raise RuntimeError
  end.

Fixpoint set_nth (d v : nat) (l : list nat) : list nat :=
  match d, l with
  | _, [] => []
  | 0, _ :: l' => v :: l'
  | S d', x :: l' => x :: set_nth d' v l'
  end.

(** [t.unfold(d, size, step)]: the windows of [size] elements along
    dimension [d], laid out in a new last dimension. *)
Definition unfold (t : Tensor R) (d size step : nat) : result (Tensor R) :=
  match nth_error (shape t) d with
  | None => Raise IndexError
  | Some n =>
      if (size <=? n) && (1 <=? step) then
        Ok (tabulate (set_nth d ((n - size) / step + 1) (shape t) ++ [size])
              (fun idx =>
                 let k := last idx 0 in
                 let base := removelast idx in
                 item rzero t (set_nth d (nth d base 0 * step + k) base)))
      else Raise RuntimeError
  end.

Fixpoint remove_nth (d : nat) (l : list nat) : list nat :=
  match d, l with
  | _, [] => []
  | 0, _ :: l' => l'
  | S d', x :: l' => x :: remove_nth d' l'
  end.

(** [t.squeeze(d)] *)
Definition squeeze (t : Tensor R) (d : Z) : result (Tensor R) :=
  n <- norm_dim (dim t) d ;;
  if nth n (shape t) 0 =? 1
  then Ok (mkTensor (remove_nth n (shape t)) (data t))
  else Ok t.

Fixpoint fill_where (l : list R) (mask : list bool) (v : R) : list R :=
  match l, mask with
  | x :: l', m :: mask' => (if m then v else x) :: fill_where l' mask' v
  | _, _ => []
  end.

Definition shape_eqb (s1 s2 : list nat) : bool :=
  if list_eq_dec Nat.eq_dec s1 s2 then true else false.

(** [t[mask] = v] for a boolean mask of the shape of [t] *)
Definition setitem_mask (t : Tensor R) (mask : Tensor bool) (v : R)
  : result (Tensor R) :=
  if shape_eqb (shape mask) (shape t)
  then Ok (mkTensor (shape t) (fill_where (data t) (data mask) v))
  else Raise IndexError.

End WithScalar.

End Flow.

(* ================================================================= *)
(** * loss_util.py *)

Module LossUtil.

Import Flow.

Local Open Scope string_scope.

Definition _reduction_modes : list string := ["none"; "mean"; "sum"].

(** The names the module binds at its top level: what it imports and what
    it defines.  No name of the module is a Python builtin. *)
Definition module_globals : list string :=
  ["functools"; "flow"; "F"; "_reduction_modes"; "get_enum"; "reduce_loss";
   "weight_reduce_loss"; "weighted_loss"; "get_local_weights";
   "get_refined_artifact_map"].

(** Reading a global name inside a function of the module. *)
Definition load_global (name : string) : result unit :=
  if existsb (String.eqb name) module_globals then Ok tt
  else Raise NameError.

(** [warnings.warn(message)]: the name [warnings] is looked up first. *)
Definition warnings_warn (message : string) : result unit :=
  load_global "warnings".

Definition get_enum (reduction : string) : result Z :=
  if reduction =? "none" then Ok 0%Z
  else if reduction =? "mean" then Ok 1%Z
  else if reduction =? "elementwise_mean" then
    _ <- warnings_warn
      "reduction='elementwise_mean' is deprecated, please use reduction='mean' instead." ;;
    Ok 1%Z
  else if reduction =? "sum" then Ok 2%Z
  else Raise ValueError.

(** A reduction string the utilities do not know, the deprecated
    alias set apart. *)
Definition unsupported (reduction : string) : Prop :=
  reduction <> "none" /\ reduction <> "mean" /\ reduction <> "sum" /\
  reduction <> "elementwise_mean".

Section WithScalar.

Context {R : Type} {SR : Scalar R}.

Definition reduce_loss (loss : Tensor R) (reduction : string)
  : result (Tensor R) :=
  reduction_enum <- get_enum reduction ;;
  if (reduction_enum =? 0)%Z then Ok loss
  else if (reduction_enum =? 1)%Z then Ok (tmean loss)
  else Ok (tsum loss).

Definition weight_reduce_loss (loss : Tensor R) (weight : option (Tensor R))
  (reduction : string) : result (Tensor R) :=
  loss <- match weight with
          | Some w =>
              _ <- py_assert (dim w =? dim loss)%nat ;;
              ws <- size w 1 ;;
              ok <- (if (ws =? 1)%nat then Ok true
                     else ws' <- size w 1 ;;
                          ls <- size loss 1 ;;
                          Ok (ws' =? ls)%nat) ;;
              _ <- py_assert ok ;;
              tmul loss w
          | None => Ok loss
          end ;;
  match weight with
  | None => reduce_loss loss reduction
  | Some w =>
      if reduction =? "sum" then reduce_loss loss reduction
      else if reduction =? "mean" then
        ws <- size w 1 ;;
        weight' <- (if (1 <? ws)%nat then Ok (tsum w)
                    else ls <- size loss 1 ;;
                         Ok (tmul_int (tsum w) ls)) ;;
        tdiv (tsum loss) weight'
      else Ok loss
  end.

(** The decorator: [K] is the type of the keyword arguments handed on to
    the decorated function. *)
Definition weighted_loss {K : Type}
  (loss_func : Tensor R -> Tensor R -> K -> result (Tensor R))
  : Tensor R -> Tensor R -> option (Tensor R) -> string -> K ->
    result (Tensor R) :=
  fun pred target weight reduction kwargs =>
    loss <- loss_func pred target kwargs ;;
    weight_reduce_loss loss weight reduction.

(** The loss of the decorator's docstring: [(pred - target).abs()]. *)
Definition l1_loss (pred target : Tensor R) (_ : unit)
  : result (Tensor R) :=
  d <- tsub pred target ;;
  Ok (tabs d).

(** A window of no positive size is refused; the padding width is
    [(ksize - 1) // 2]. *)
Definition get_local_weights (residual : Tensor R) (ksize : Z)
  : result (Tensor R) :=
  if (ksize <=? 0)%Z then Raise RuntimeError
  else
    let pad := ((ksize - 1) / 2)%Z in
    residual_pad <- pad_reflect residual (Z.to_nat pad) ;;
    unfolded_rows <- unfold residual_pad 2 (Z.to_nat ksize) 1 ;;
    unfolded_residual <- unfold unfolded_rows 3 (Z.to_nat ksize) 1 ;;
    v <- var_dims unfolded_residual [-1; -2]%Z ;;
    v <- squeeze v (-1) ;;
    pixel_level_weight <- squeeze v (-1) ;;
    Ok pixel_level_weight.

Definition get_refined_artifact_map (img_gt img_output img_ema : Tensor R)
  (ksize : Z) : result (Tensor R) :=
  d_ema <- tsub img_gt img_ema ;;
  residual_ema <- sum_dim (tabs d_ema) 1 ;;
  d_sr <- tsub img_gt img_output ;;
  residual_sr <- sum_dim (tabs d_sr) 1 ;;
  v <- var_dims residual_sr [-1; -2; -3]%Z ;;
  let patch_level_weight := troot5 v in
  pixel_level_weight <- get_local_weights residual_sr ksize ;;
  overall_weight <- tmul patch_level_weight pixel_level_weight ;;
  mask <- tlt residual_sr residual_ema ;;
  setitem_mask overall_weight mask rzero.

(** The weight map before any position is zeroed: the product of the
    patch-level and the pixel-level weights of [img_output]. *)
Definition unmasked_weight (img_gt img_output : Tensor R) (ksize : Z)
  : result (Tensor R * Tensor R) :=
  d_sr <- tsub img_gt img_output ;;
  residual_sr <- sum_dim (tabs d_sr) 1 ;;
  v <- var_dims residual_sr [-1; -2; -3]%Z ;;
  pixel_level_weight <- get_local_weights residual_sr ksize ;;
  overall_weight <- tmul (troot5 v) pixel_level_weight ;;
  Ok (residual_sr, overall_weight).

End WithScalar.

End LossUtil.

(* ================================================================= *)
(** * Rational scalars, for running the loss utilities on examples

    Every operation returns a reduced fraction.  A division by zero gives 0
    here (a float gives inf or nan); the fifth root is exact on fifth powers
    of rationals and rounded down to a multiple of 2^-24 elsewhere, and 0 on
    negative numbers (a float gives nan). *)

Fixpoint root5_search (bit : nat) (n acc : Z) : Z :=
  match bit with
  | O => acc
  | S bit' =>
      let c := acc + 2 ^ Z.of_nat bit' in
      root5_search bit' n (if c ^ 5 <=? n then c else acc)
  end.

(** The largest [k] with [k ^ 5 <= n], for [n >= 0]. *)
Definition Zroot5 (n : Z) : Z := root5_search (Z.to_nat (Z.log2_up n) + 1) n 0.

Definition Qroot5 (x : Q) : Q :=
  let a := Qnum (Qred x) in
  let b := Zpos (Qden (Qred x)) in
  if a <? 0 then 0%Q
  else if Zroot5 (a * b ^ 4) ^ 5 =? a * b ^ 4
       then Qred (Qmake (Zroot5 (a * b ^ 4)) (Qden (Qred x)))
       else Qred (Qmake (Zroot5 (a * b ^ 4 * 2 ^ 120))
                        (Qden (Qred x) * 2 ^ 24)).

#[export] Instance Q_Scalar : Scalar Q := {
  rzero := 0%Q;
  radd := fun x y => Qred (x + y);
  rsub := fun x y => Qred (x - y);
  rmul := fun x y => Qred (x * y);
  rdiv := fun x y => Qred (x / y);
  rabs := fun x => Qred (Qabs x);
  rltb := fun x y => match (x ?= y)%Q with Lt => true | _ => false end;
  rof_nat := fun n => inject_Z (Z.of_nat n);
  rroot5 := Qroot5
}.

(** A tensor of rationals from integers. *)
Definition qtensor (s : list nat) (l : list Z) : Flow.Tensor Q :=
  Flow.mkTensor s (map inject_Z l).

(** The positions of the shuffled list that rank [r] reads: [r], [r + nr],
    [r + 2 * nr], ... *)
Definition rank_positions (nr ns r : Z) : list Z :=
  map (fun j => r + j * nr) (zrange ns).

(** [l[p]] for a list of integers. *)
Definition at_position (l : list Z) (p : Z) : Z := nth (Z.to_nat p) l 0.

(** The list every rank slices in epoch [e]: the permutation drawn from the
    reseeded generator, reduced modulo the dataset size. *)
Definition epoch_indices `{FlowRandom} (dataset_size total e : Z)
  (g0 : Generator) : list Z :=
  map (fun v => v mod dataset_size)
    (randperm_draw (Z.to_nat total) (manual_seed g0 e)).

(** [[f x for x in l]], stopping at the first exception. *)
Fixpoint result_map {A B : Type} (f : A -> result B) (l : list A)
  : result (list B) :=
  match l with
  | [] => Ok []
  | x :: l' =>
      y <- f x ;;
      ys <- result_map f l' ;;
      Ok (y :: ys)
  end.

(** What the process of rank [rk] does in epoch [e]: it constructs its
    sampler, sets the epoch and iterates; [g rk] is the generator it gets. *)
Definition rank_sequence `{FlowRandom} {A : Type} (d : list A)
  (nr ratio e : Z) (g : Z -> Generator) (rk : Z) : result (list Z) :=
  s <- DataSampler.__init__ d nr rk ratio ;;
  DataSampler.__iter__ (DataSampler.set_epoch s e) (g rk).

(** The sequences of the ranks [0 .. nr-1], in the order of the ranks. *)
Definition all_rank_sequences `{FlowRandom} {A : Type} (d : list A)
  (nr ratio e : Z) (g : Z -> Generator) : result (list (list Z)) :=
  result_map (rank_sequence d nr ratio e g) (zrange nr).

(** The reads of all the ranks, in closed form. *)
Definition rank_reads (idx : list Z) (nr ns : Z) : list (list Z) :=
  map (fun rk => map (at_position idx) (rank_positions nr ns rk)) (zrange nr).

(** Two lists combined element by element. *)
Definition zip_lists {A B C : Type} (f : A -> B -> C) (la : list A)
  (lb : list B) : list C :=
  map (fun xy => f (fst xy) (snd xy)) (combine la lb).

(** A tensor holds as many elements as its shape says. *)
Definition well_formed {E : Type} (t : Flow.Tensor E) : Prop :=
  List.length (Flow.data t) = Flow.numel (Flow.shape t).

(** The residual of an image against the ground truth, as
    [get_refined_artifact_map] takes it: the absolute difference summed
    over dimension 1. *)
Definition residual {R : Type} `{Scalar R} (img_gt img : Flow.Tensor R)
  : result (Flow.Tensor R) :=
  d <- Flow.tsub img_gt img ;;
  Flow.sum_dim (Flow.tabs d) 1.

(* ================================================================= *)
(** * inference_basicvsr.py: the batches of [main] *)

(** [range(start, stop, step)], as the list of its values. *)
Definition py_range (start stop step : Z) : result (list Z) :=
  if step =? 0 then Raise ValueError
  else if 0 <? step then
    let count := if start <? stop then (stop - start - 1) / step + 1 else 0 in
    Ok (map (fun j => start + j * step) (zrange count))
  else
    let count :=
      if stop <? start then (start - stop - 1) / (- step) + 1 else 0 in
    Ok (map (fun j => start + j * step) (zrange count)).

Module InferenceBasicVSR.

Section Main.

(** The file names that [glob] lists, and the state of the world that
    reading and writing images acts on. *)
Context {Name World : Type}.

(** What [main] does with one list of names: [read_img_seq], the move to
    the device and [inference], which runs the network and writes the
    images.  It is taken as a step that may fail. *)
Variable run_batch : list Name -> World -> result World.

(** [for x in l: body], stopping at the first exception. *)
Fixpoint for_each {X : Type} (body : X -> World -> result World)
  (l : list X) (w : World) : result World :=
  match l with
  | [] => Ok w
  | x :: l' =>
      w' <- body x w ;;
      for_each body l' w'
  end.

(** The part of [main] under "load data and inference": the sorted list of
    names goes to one batch when it is no longer than [args.interval], and
    otherwise to batches of [args.interval] names, the last one shorter. *)
Definition load_and_infer (imgs_list : list Name) (args_interval : Z)
  (w : World) : result World :=
  let num_imgs := len imgs_list in
  if len imgs_list <=? args_interval then run_batch imgs_list w
  else
    idxs <- py_range 0 num_imgs args_interval ;;
    for_each
      (fun idx w =>
         let interval := Z.min args_interval (num_imgs - idx) in
         batch <- PyList.getslice imgs_list idx (idx + interval) 1 ;;
         run_batch batch w)
      idxs w.

End Main.

End InferenceBasicVSR.

(** The list [l] cut into runs of [k]: run [j] holds the elements
    [j * k .. j * k + k - 1] that exist. *)
Definition batches_of {X : Type} (l : list X) (k : nat) : list (list X) :=
  map (fun j => firstn k (skipn (j * k) l))
    (seq 0 ((List.length l + k - 1) / k)).

(** A world that records the batches it is handed. *)
Definition record_batch (b : list nat) (w : list (list nat))
  : result (list (list nat)) :=
  Ok (w ++ [b]).

(* ================================================================= *)
(** * Properties of the sampler *)

Section RangeFacts.

Lemma in_zrange (n x : Z) : In x (zrange n) <-> 0 <= x < n.
Proof.
  unfold zrange. rewrite in_map_iff. split.
  - intros [k [<- Hk]]. apply in_seq in Hk. lia.
  - intros Hx. exists (Z.to_nat x). split; [lia|]. apply in_seq. lia.
Qed.

Lemma length_zrange (n : Z) : List.length (zrange n) = Z.to_nat n.
Proof. unfold zrange. now rewrite length_map, length_seq. Qed.

Lemma NoDup_zrange (n : Z) : NoDup (zrange n).
Proof.
  unfold zrange. apply Injective_map_NoDup.
  - intros a b Hab. lia.
  - apply seq_NoDup.
Qed.

Lemma zrange_of_nat (n : nat) : zrange (Z.of_nat n) = map Z.of_nat (seq 0 n).
Proof. unfold zrange. now rewrite Nat2Z.id. Qed.

End RangeFacts.

Section SliceFacts.

Import PyList.

Lemma strided_count (ns nr r : Z) :
  1 <= ns -> 0 <= r < nr -> (ns * nr - r - 1) / nr + 1 = ns.
Proof.
  intros Hns Hr.
  assert (E : ns - 1 = (ns * nr - r - 1) / nr).
  { apply (Z.div_unique _ _ _ (nr - r - 1)); [left; lia | ring]. }
  lia.
Qed.

(** The slice [l[r : ns*nr : nr]] of a list of [ns * nr] elements reads the
    positions [r + j * nr] for [j] in [0, ns). *)
Lemma slice_positions_strided (ns nr r : Z) :
  0 <= ns -> 0 <= r < nr ->
  slice_positions (ns * nr) r (ns * nr) nr = Ok (rank_positions nr ns r).
Proof.
  intros Hns Hr. unfold slice_positions, rank_positions, adjust.
  destruct (Z.eqb_spec nr 0) as [E|_]; [lia|].
  destruct (Z.ltb_spec 0 nr) as [_|E]; [|lia].
  destruct (Z.ltb_spec r 0) as [E|_]; [lia|].
  destruct (Z.eq_dec ns 0) as [-> | Hpos].
  - simpl. destruct (Z.leb_spec 0 r) as [_|E]; [|lia]. reflexivity.
  - assert (Htot : nr <= ns * nr) by nia.
    destruct (Z.leb_spec (ns * nr) r) as [E|_]; [lia|].
    destruct (Z.ltb_spec (ns * nr) 0) as [E|_]; [lia|].
    destruct (Z.leb_spec (ns * nr) (ns * nr)) as [_|E]; [|lia].
    destruct (Z.ltb_spec r (ns * nr)) as [_|E]; [|lia].
    rewrite strided_count by lia. reflexivity.
Qed.

Lemma pick_in_range {A : Type} (l : list A) (d : A) (p : Z) :
  0 <= p < len l -> pick l p = [nth (Z.to_nat p) l d].
Proof.
  intros Hp. unfold pick, len in *.
  destruct (Z.ltb_spec p 0) as [E|_]; [lia|].
  destruct (nth_error l (Z.to_nat p)) as [x|] eqn:E.
  - now rewrite (nth_error_nth _ _ d E).
  - apply nth_error_None in E. lia.
Qed.

Lemma flat_map_pick {A : Type} (l : list A) (d : A) (ps : list Z) :
  Forall (fun p => 0 <= p < len l) ps ->
  flat_map (pick l) ps = map (fun p => nth (Z.to_nat p) l d) ps.
Proof.
  induction 1 as [|p ps Hp _ IH]; simpl; [reflexivity|].
  now rewrite (pick_in_range l d p Hp), IH.
Qed.

Lemma rank_positions_bound (nr ns r : Z) :
  0 <= r < nr ->
  Forall (fun p => 0 <= p < ns * nr) (rank_positions nr ns r).
Proof.
  intros Hr. apply Forall_forall. intros p Hp.
  unfold rank_positions in Hp. apply in_map_iff in Hp.
  destruct Hp as [j [<- Hj]]. apply in_zrange in Hj. nia.
Qed.

Lemma length_rank_positions (nr ns r : Z) :
  len (rank_positions nr ns r) = Z.max 0 ns.
Proof.
  unfold len, rank_positions. rewrite length_map, length_zrange. lia.
Qed.

(** What the strided slice returns, element by element. *)
Lemma getslice_strided (l : list Z) (ns nr r : Z) :
  len l = ns * nr -> 0 <= ns -> 0 <= r < nr ->
  getslice l r (ns * nr) nr =
  Ok (map (at_position l) (rank_positions nr ns r)).
Proof.
  intros Hl Hns Hr. unfold getslice. rewrite Hl.
  rewrite slice_positions_strided by assumption. simpl.
  f_equal. apply flat_map_pick. rewrite Hl.
  now apply rank_positions_bound.
Qed.

End SliceFacts.

Section FloatFacts.

Import PyFloat DataSampler.

Lemma round_half_even_bounds (n d : Z) :
  0 < d ->
  2 * n - d <= 2 * d * round_half_even n d <= 2 * n + d.
Proof.
  intros Hd. unfold round_half_even.
  pose proof (Z.div_mod n d ltac:(lia)) as Hdm.
  pose proof (Z.mod_pos_bound n d Hd) as Hm.
  destruct (Z.ltb_spec (2 * (n mod d)) d);
    [|destruct (Z.ltb_spec d (2 * (n mod d)));
      [|destruct (Z.even (n / d))]]; nia.
Qed.

Lemma round_half_even_nonneg (n d : Z) :
  0 <= n -> 0 < d -> 0 <= round_half_even n d.
Proof.
  intros Hn Hd. unfold round_half_even.
  pose proof (Z.div_pos n d Hn Hd).
  destruct (2 * (n mod d) <? d); [lia|].
  destruct (d <? 2 * (n mod d)); [lia|].
  destruct (Z.even (n / d)); lia.
Qed.

(** [2 ^ k <= a / b] for [k = quotient_log2 a b]. *)
Lemma quotient_log2_lower (a b : Z) :
  0 < a -> 0 < b ->
  b * 2 ^ Z.max 0 (quotient_log2 a b)
  <= a * 2 ^ Z.max 0 (- quotient_log2 a b).
Proof.
  intros Ha Hb. unfold quotient_log2.
  set (d := Z.log2 a - Z.log2 b).
  destruct (Z.leb_spec (b * 2 ^ Z.max 0 d) (a * 2 ^ Z.max 0 (- d)))
    as [H|_]; [exact H|].
  pose proof (Z.log2_spec a Ha) as [Hla _].
  pose proof (Z.log2_spec b Hb) as [_ Hlb].
  pose proof (Z.log2_nonneg a) as Hna.
  pose proof (Z.log2_nonneg b) as Hnb.
  destruct (Z.le_gt_cases 1 d) as [Hd|Hd].
  - rewrite (Z.max_r 0 (d - 1)), (Z.max_l 0 (- (d - 1))) by lia.
    rewrite Z.pow_0_r, Z.mul_1_r.
    assert (E : 2 ^ Z.log2 a = 2 ^ Z.succ (Z.log2 b) * 2 ^ (d - 1)).
    { rewrite <- Z.pow_add_r by lia. f_equal. unfold d. lia. }
    assert (0 < 2 ^ (d - 1)) by (apply Z.pow_pos_nonneg; lia).
    nia.
  - rewrite (Z.max_l 0 (d - 1)), (Z.max_r 0 (- (d - 1))) by lia.
    rewrite Z.pow_0_r, Z.mul_1_r.
    assert (E : 2 ^ Z.succ (Z.log2 b) = 2 ^ Z.log2 a * 2 ^ (- (d - 1))).
    { rewrite <- Z.pow_add_r by lia. f_equal. unfold d. lia. }
    assert (0 < 2 ^ (- (d - 1))) by (apply Z.pow_pos_nonneg; lia).
    nia.
Qed.

(** [a / b < 2 ^ (k + 1)] for [k = quotient_log2 a b]. *)
Lemma quotient_log2_upper (a b : Z) :
  0 < a -> 0 < b ->
  a * 2 ^ Z.max 0 (- quotient_log2 a b)
  < 2 * (b * 2 ^ Z.max 0 (quotient_log2 a b)).
Proof.
  intros Ha Hb. unfold quotient_log2.
  set (d := Z.log2 a - Z.log2 b).
  pose proof (Z.log2_spec a Ha) as [_ Hla].
  pose proof (Z.log2_spec b Hb) as [Hlb _].
  pose proof (Z.log2_nonneg a) as Hna.
  pose proof (Z.log2_nonneg b) as Hnb.
  destruct (Z.leb_spec (b * 2 ^ Z.max 0 d) (a * 2 ^ Z.max 0 (- d)))
    as [_|H].
  - destruct (Z.le_gt_cases 0 d) as [Hd|Hd].
    + rewrite (Z.max_r 0 d), (Z.max_l 0 (- d)) by lia.
      rewrite Z.pow_0_r, Z.mul_1_r.
      assert (E : 2 ^ Z.succ (Z.log2 a) = 2 * (2 ^ Z.log2 b * 2 ^ d)).
      { rewrite <- Z.pow_add_r, <- Z.pow_succ_r by lia. f_equal.
        unfold d. lia. }
      assert (0 < 2 ^ d) by (apply Z.pow_pos_nonneg; lia).
      nia.
    + rewrite (Z.max_l 0 d), (Z.max_r 0 (- d)) by lia.
      rewrite Z.pow_0_r, Z.mul_1_r.
      assert (E : 2 ^ Z.succ (Z.log2 a) * 2 ^ (- d) = 2 * 2 ^ Z.log2 b).
      { rewrite <- Z.pow_add_r, <- Z.pow_succ_r by lia. f_equal.
        unfold d. lia. }
      assert (0 < 2 ^ (- d)) by (apply Z.pow_pos_nonneg; lia).
      nia.
  - destruct (Z.le_gt_cases 1 d) as [Hd|Hd].
    + rewrite (Z.max_r 0 d), (Z.max_l 0 (- d)) in H by lia.
      rewrite (Z.max_r 0 (d - 1)), (Z.max_l 0 (- (d - 1))) by lia.
      rewrite Z.pow_0_r, Z.mul_1_r in *.
      replace d with (Z.succ (d - 1)) in H by lia.
      rewrite Z.pow_succ_r in H by lia. lia.
    + rewrite (Z.max_l 0 d), (Z.max_r 0 (- d)) in H by lia.
      rewrite (Z.max_l 0 (d - 1)), (Z.max_r 0 (- (d - 1))) by lia.
      rewrite Z.pow_0_r, Z.mul_1_r in *.
      replace (- (d - 1)) with (Z.succ (- d)) by lia.
      rewrite Z.pow_succ_r by lia. lia.
Qed.

Lemma ceil_div_zero (b q : Z) : ceil_div 0 b = Ok q -> q = 0.
Proof.
  unfold ceil_div, int_true_divide. destruct (b =? 0); [discriminate|].
  cbn. now intros [= <-].
Qed.

Lemma ceil_div_nonneg (a b q : Z) :
  0 < b -> 0 <= a -> ceil_div a b = Ok q -> 0 <= q.
Proof.
  intros Hb Ha. unfold ceil_div, int_true_divide.
  destruct (Z.eqb_spec b 0) as [E|_]; [lia|].
  destruct (Z.eqb_spec a 0) as [->|Hne]; [cbn; intros [= <-]; lia|].
  rewrite (Z.abs_eq a), (Z.abs_eq b) by lia.
  set (e := Z.max (quotient_log2 a b - 52) (-1074)).
  set (m := round_half_even (a * 2 ^ Z.max 0 (- e)) (b * 2 ^ Z.max 0 e)).
  assert (Hp1 : 0 < 2 ^ Z.max 0 (- e)) by (apply Z.pow_pos_nonneg; lia).
  assert (Hp2 : 0 < 2 ^ Z.max 0 e) by (apply Z.pow_pos_nonneg; lia).
  assert (Hm : 0 <= m) by (apply round_half_even_nonneg; nia).
  destruct ((0 <=? e) && (2 ^ 1024 <=? m * 2 ^ e)); [discriminate|].
  cbn [bind]. intros [= <-]. unfold math_ceil. cbn [mant expo].
  replace (Z.sgn a * Z.sgn b * m) with m
    by (rewrite (Z.sgn_pos a), (Z.sgn_pos b) by lia; lia).
  destruct (Z.leb_spec 0 e) as [He|He].
  - assert (0 < 2 ^ e) by (apply Z.pow_pos_nonneg; lia). nia.
  - assert (Hs : 0 < 2 ^ (- e)) by (apply Z.pow_pos_nonneg; lia).
    pose proof (Z.div_mod (- m) (2 ^ (- e)) ltac:(lia)) as Hdm.
    pose proof (Z.mod_pos_bound (- m) (2 ^ (- e)) Hs) as Hmod.
    nia.
Qed.

(** For a dividend below 2^53 and a divisor below 2^1075 the rounded
    quotient has the ceiling of the exact one. *)
Lemma ceil_div_exact (a b : Z) :
  0 <= a < 2 ^ 53 -> 1 <= b < 2 ^ 1075 ->
  exists q, ceil_div a b = Ok q /\ (q - 1) * b < a <= q * b.
Proof.
  intros Ha Hb. unfold ceil_div, int_true_divide.
  destruct (Z.eqb_spec b 0) as [E|_]; [lia|].
  destruct (Z.eqb_spec a 0) as [->|Hne].
  { exists 0. split; [reflexivity | lia]. }
  rewrite (Z.abs_eq a), (Z.abs_eq b) by lia.
  rewrite (Z.sgn_pos a), (Z.sgn_pos b) by lia.
  pose proof (quotient_log2_lower a b ltac:(lia) ltac:(lia)) as Hk.
  set (k := quotient_log2 a b) in *.
  set (e := Z.max (k - 52) (-1074)).
  assert (He_def : e = Z.max (k - 52) (-1074)) by reflexivity.
  clearbody e.
  destruct (Z.leb_spec 0 e) as [He|He].
  - (* the quotient is at least 2^52: the divisor is 1 *)
    assert (Hk52 : 52 <= k) by lia.
    rewrite (Z.max_r 0 k), (Z.max_l 0 (- k)) in Hk by lia.
    rewrite Z.pow_0_r, Z.mul_1_r in Hk.
    assert (Hpk : 2 ^ 52 <= 2 ^ k) by (apply Z.pow_le_mono_r; lia).
    assert (Hb1 : b = 1) by nia.
    assert (Hk' : k = 52).
    { destruct (Z.eq_dec k 52) as [|Hn]; [assumption|].
      assert (2 ^ 53 <= 2 ^ k) by (apply Z.pow_le_mono_r; lia). nia. }
    assert (He0 : e = 0) by lia.
    subst e b. rewrite He0.
    change (Z.max 0 (- 0)) with 0. change (Z.max 0 0) with 0.
    rewrite Z.pow_0_r, !Z.mul_1_r.
    assert (Hm : round_half_even a 1 = a).
    { unfold round_half_even. rewrite Z.div_1_r, Z.mod_1_r. reflexivity. }
    rewrite Hm.
    assert (Hov : (2 ^ 1024 <=? a) = false).
    { apply Z.leb_gt. apply (Z.lt_trans _ (2 ^ 53)); [lia | reflexivity]. }
    rewrite Hov. cbn [andb bind]. exists a. split.
    + unfold math_ceil. cbn [mant expo Z.leb Z.compare].
      f_equal. rewrite Z.pow_0_r. lia.
    + lia.
  - cbn [andb bind].
    rewrite (Z.max_r 0 (- e)), (Z.max_l 0 e) by lia.
    rewrite Z.pow_0_r, (Z.mul_1_r b).
    assert (Hs : 0 < 2 ^ (- e)) by (apply Z.pow_pos_nonneg; lia).
    assert (H2s : b < 2 * 2 ^ (- e)).
    { destruct (Z.max_spec (k - 52) (-1074)) as [[Hc Hmx]|[Hc Hmx]];
        rewrite Hmx in He_def; subst e.
      - change (- -1074) with 1074.
        replace (2 * 2 ^ 1074) with (2 ^ 1075) by reflexivity. lia.
      - replace (2 * 2 ^ (- (k - 52))) with (2 ^ (53 - k))
          by (replace (53 - k) with (1 + - (k - 52)) by lia;
              rewrite Z.pow_add_r by lia; reflexivity).
        destruct (Z.le_gt_cases 0 k) as [Hk0|Hk0].
        + rewrite (Z.max_r 0 k), (Z.max_l 0 (- k)) in Hk by lia.
          rewrite Z.pow_0_r, Z.mul_1_r in Hk.
          assert (E : 2 ^ 53 = 2 ^ (53 - k) * 2 ^ k)
            by (rewrite <- Z.pow_add_r by lia; f_equal; lia).
          assert (0 < 2 ^ k) by (apply Z.pow_pos_nonneg; lia).
          assert (0 < 2 ^ (53 - k)) by (apply Z.pow_pos_nonneg; lia).
          nia.
        + rewrite (Z.max_l 0 k), (Z.max_r 0 (- k)) in Hk by lia.
          rewrite Z.pow_0_r, Z.mul_1_r in Hk.
          assert (E : 2 ^ (53 - k) = 2 ^ 53 * 2 ^ (- k))
            by (rewrite <- Z.pow_add_r by lia; f_equal; lia).
          assert (0 < 2 ^ (- k)) by (apply Z.pow_pos_nonneg; lia).
          nia. }
    set (s := 2 ^ (- e)) in *.
    pose proof (round_half_even_bounds (a * s) b ltac:(lia)) as Hr.
    set (m := round_half_even (a * s) b) in *.
    set (n := - (- a / b)).
    assert (Hn : (n - 1) * b < a <= n * b).
    { unfold n. pose proof (Z.div_mod (- a) b ltac:(lia)).
      pose proof (Z.mod_pos_bound (- a) b ltac:(lia)). nia. }
    assert (Hlo : (n - 1) * s < m) by nia.
    assert (Hhi : m <= n * s) by nia.
    exists n. split; [|exact Hn].
    unfold math_ceil. cbn [mant expo].
    destruct (Z.leb_spec 0 e) as [E|_]; [lia|]. fold s.
    rewrite Z.mul_1_l. f_equal.
    assert (Hq : - m / s = - n).
    { symmetry. apply (Z.div_unique _ _ _ (n * s - m)); [left; lia | ring]. }
    lia.
Qed.

End FloatFacts.

Section SamplerFacts.

Import DataSampler.

Context {FR : FlowRandom}.

(** Reseeding overwrites the whole state of a generator. *)
Hypothesis manual_seed_reseeds :
  forall (g g' : Generator) (s : Z), manual_seed g s = manual_seed g' s.

(** A draw of size [n] is a permutation of [0, n). *)
Hypothesis randperm_draw_perm :
  forall (n : nat) (g : Generator),
    Permutation (randperm_draw n g) (map Z.of_nat (seq 0 n)).

Lemma init_fields {A : Type} (d : list A) (nr rk ratio : Z)
  (s : EnlargedSampler A) :
  __init__ d nr rk ratio = Ok s ->
  dataset s = d /\ num_replicas s = nr /\ rank s = rk /\ epoch s = 0 /\
  ceil_div (len d * ratio) nr = Ok (num_samples s) /\
  total_size s = num_samples s * nr.
Proof.
  unfold __init__. destruct (ceil_div (len d * ratio) nr) as [q|x]; simpl.
  - intros [= <-]. simpl. repeat split; reflexivity.
  - discriminate.
Qed.

Lemma init_of_ceil_div {A : Type} (d : list A) (nr rk ratio q : Z) :
  ceil_div (len d * ratio) nr = Ok q ->
  __init__ d nr rk ratio = Ok (mkSampler d nr rk 0 q (q * nr)).
Proof. intros Hq. unfold __init__. now rewrite Hq. Qed.

(** Whether the constructor returns does not depend on the rank. *)
Lemma init_any_rank {A : Type} (d : list A) (nr rk rk' ratio : Z)
  (s : EnlargedSampler A) :
  __init__ d nr rk ratio = Ok s ->
  __init__ d nr rk' ratio =
  Ok (mkSampler d nr rk' 0 (num_samples s) (num_samples s * nr)).
Proof.
  intros Hinit. apply init_of_ceil_div.
  now destruct (init_fields _ _ _ _ _ Hinit) as (_ & _ & _ & _ & Hc & _).
Qed.

Lemma mod_each_ok (l : list Z) (m : Z) :
  l = [] \/ m <> 0 -> mod_each l m = Ok (map (fun v => v mod m) l).
Proof.
  intros [-> | Hm]; [reflexivity|].
  destruct l; [reflexivity|]. simpl.
  destruct (Z.eqb_spec m 0); [contradiction | reflexivity].
Qed.

Lemma length_randperm_draw (n : nat) (g : Generator) :
  List.length (randperm_draw n g) = n.
Proof.
  rewrite (Permutation_length (randperm_draw_perm n g)).
  now rewrite length_map, length_seq.
Qed.

Lemma len_epoch_indices (ds total e : Z) (g0 : Generator) :
  0 <= total -> len (epoch_indices ds total e g0) = total.
Proof.
  intros Ht. unfold len, epoch_indices.
  rewrite length_map, length_randperm_draw. lia.
Qed.

(** One iteration of a sampler whose sizes are consistent: it returns the
    strided read of the epoch's list. *)
Lemma iter_consistent {A : Type} (d : list A) (nr rk e ns : Z)
  (g : Generator) :
  0 <= ns -> 0 <= rk < nr -> len d <> 0 \/ ns = 0 ->
  __iter__ (mkSampler d nr rk e ns (ns * nr)) g =
  Ok (map (at_position (epoch_indices (len d) (ns * nr) e g))
        (rank_positions nr ns rk)).
Proof.
  intros Hns Hrk Hd.
  assert (Htot : 0 <= ns * nr) by nia.
  unfold __iter__. simpl. unfold randperm.
  destruct (Z.ltb_spec (ns * nr) 0) as [E|_]; [lia|]. simpl.
  rewrite mod_each_ok.
  2:{ destruct Hd as [Hd | ->]; [now right | left]. simpl.
      apply length_zero_iff_nil, length_randperm_draw. }
  simpl. fold (epoch_indices (len d) (ns * nr) e g).
  rewrite getslice_strided;
    [| now apply len_epoch_indices | exact Hns | exact Hrk].
  simpl.
  replace (len _ =? ns) with true; [reflexivity|].
  symmetry. apply Z.eqb_eq. unfold len at 1.
  rewrite length_map. fold (len (rank_positions nr ns rk)).
  rewrite length_rank_positions. lia.
Qed.

Lemma init_value {A : Type} (d : list A) (nr rk ratio : Z)
  (s : EnlargedSampler A) :
  __init__ d nr rk ratio = Ok s ->
  s = mkSampler d nr rk 0 (num_samples s) (num_samples s * nr).
Proof.
  unfold __init__. destruct (ceil_div (len d * ratio) nr) as [q|x]; simpl.
  - now intros [= <-].
  - discriminate.
Qed.

(** Under the sampler's preconditions the iteration returns, and it returns
    the strided read of the epoch's list. *)
Lemma iter_closed_form {A : Type} (d : list A) (nr rk ratio e : Z)
  (s : EnlargedSampler A) (g : Generator) :
  1 <= nr -> 0 <= rk < nr -> 0 <= ratio ->
  __init__ d nr rk ratio = Ok s ->
  __iter__ (set_epoch s e) g =
  Ok (map (at_position (epoch_indices (len d) (total_size s) e g))
        (rank_positions nr (num_samples s) rk)).
Proof.
  intros Hnr Hrk Hratio Hinit.
  destruct (init_fields _ _ _ _ _ Hinit) as (_ & _ & _ & _ & Hceil & _).
  assert (Hlen : 0 <= len d) by (unfold len; lia).
  assert (Hprod : 0 <= len d * ratio) by (apply Z.mul_nonneg_nonneg; lia).
  assert (Hns : 0 <= num_samples s)
    by (apply (ceil_div_nonneg (len d * ratio) nr);
        [lia | exact Hprod | exact Hceil]).
  rewrite (init_value _ _ _ _ _ Hinit). unfold set_epoch. simpl.
  apply iter_consistent; [exact Hns | exact Hrk |].
  destruct (Z.eq_dec (len d) 0) as [E0|E0]; [right | now left].
  rewrite E0 in Hceil. simpl in Hceil. now apply ceil_div_zero in Hceil.
Qed.

Lemma NoDup_flat_map {X Y : Type} (f : X -> list Y) (l : list X) :
  NoDup l ->
  (forall a, In a l -> NoDup (f a)) ->
  (forall a a' y, In a l -> In a' l -> In y (f a) -> In y (f a') -> a = a') ->
  NoDup (flat_map f l).
Proof.
  induction 1 as [|a l Ha Hl IH]; intros Hf Hdisj; simpl.
  - constructor.
  - apply NoDup_app.
    + apply Hf. now left.
    + apply IH.
      * intros b Hb. apply Hf. now right.
      * intros b b' y Hb Hb'. apply Hdisj; now right.
    + intros y Hy Hy'. apply in_flat_map in Hy'.
      destruct Hy' as [b [Hb Hyb]].
      assert (a = b) by (apply (Hdisj a b y); auto using in_eq, in_cons).
      subst b. contradiction.
Qed.

Lemma NoDup_rank_positions (nr ns r : Z) :
  1 <= nr -> NoDup (rank_positions nr ns r).
Proof.
  intros Hnr. unfold rank_positions. apply Injective_map_NoDup.
  - intros j j' Hj. nia.
  - apply NoDup_zrange.
Qed.

Lemma in_rank_positions (nr ns r p : Z) :
  In p (rank_positions nr ns r) <-> exists j, 0 <= j < ns /\ p = r + j * nr.
Proof.
  unfold rank_positions. rewrite in_map_iff. split.
  - intros [j [<- Hj]]. exists j. split; [now apply in_zrange | reflexivity].
  - intros [j [Hj ->]]. exists j. split; [reflexivity | now apply in_zrange].
Qed.

(** The positions read by the ranks [0 .. nr-1] are the positions
    [0 .. ns*nr-1], each once. *)
Lemma rank_positions_partition (nr ns : Z) :
  1 <= nr ->
  Permutation (flat_map (rank_positions nr ns) (zrange nr))
              (zrange (ns * nr)).
Proof.
  intros Hnr. apply NoDup_Permutation.
  - apply NoDup_flat_map.
    + apply NoDup_zrange.
    + intros r _. now apply NoDup_rank_positions.
    + intros r r' p Hr Hr' Hp Hp'.
      apply in_zrange in Hr, Hr'.
      apply in_rank_positions in Hp, Hp'.
      destruct Hp as [j [Hj ->]]. destruct Hp' as [j' [Hj' E]].
      assert (j = j') by nia. subst j'. lia.
  - apply NoDup_zrange.
  - intros p. rewrite in_flat_map, in_zrange. split.
    + intros [r [Hr Hp]]. apply in_zrange in Hr.
      apply in_rank_positions in Hp. destruct Hp as [j [Hj ->]]. nia.
    + intros Hp. exists (p mod nr).
      pose proof (Z.mod_pos_bound p nr ltac:(lia)) as Hm.
      pose proof (Z.div_mod p nr ltac:(lia)) as Hdm.
      split; [now apply in_zrange|].
      apply in_rank_positions. exists (p / nr). split; [nia | lia].
Qed.

(** Iteration reads the dataset only through its length, and the generator
    only through the seed. *)
Lemma iter_ext {A B : Type} (s1 : EnlargedSampler A) (s2 : EnlargedSampler B)
  (g1 g2 : Generator) :
  len (dataset s1) = len (dataset s2) ->
  num_replicas s1 = num_replicas s2 ->
  rank s1 = rank s2 ->
  epoch s1 = epoch s2 ->
  num_samples s1 = num_samples s2 ->
  total_size s1 = total_size s2 ->
  __iter__ s1 g1 = __iter__ s2 g2.
Proof.
  intros Hd Hn Hr He Hs Ht. unfold __iter__.
  rewrite Hd, Hn, Hr, He, Hs, Ht.
  now rewrite (manual_seed_reseeds g1 g2).
Qed.

(** C1. Two samplers constructed independently from datasets of the same
    size with the same [num_replicas], [rank] and [ratio], and set to the
    same epoch, yield the same index sequence whatever generators they
    start from; and iterating one sampler again, epoch unchanged, yields
    the same sequence again. *)
Theorem iteration_deterministic {A B : Type} (d1 : list A) (d2 : list B)
  (nr rk ratio e : Z) (s1 : EnlargedSampler A) (s2 : EnlargedSampler B)
  (g1 g2 : Generator) :
  len d1 = len d2 ->
  __init__ d1 nr rk ratio = Ok s1 ->
  __init__ d2 nr rk ratio = Ok s2 ->
  __iter__ (set_epoch s1 e) g1 = __iter__ (set_epoch s2 e) g2 /\
  __iter__ (set_epoch s1 e) g1 = __iter__ (set_epoch s1 e) g2 /\
  __iter__ s1 g1 = __iter__ s1 g2.
Proof.
  intros Hlen H1 H2.
  destruct (init_fields _ _ _ _ _ H1) as (Hd1 & Hn1 & Hr1 & _ & Hc1 & Ht1).
  destruct (init_fields _ _ _ _ _ H2) as (Hd2 & Hn2 & Hr2 & _ & Hc2 & Ht2).
  assert (Hns : num_samples s1 = num_samples s2).
  { rewrite Hlen, Hc2 in Hc1. now injection Hc1. }
  split; [|split].
  - apply iter_ext; simpl; congruence.
  - now apply iter_ext.
  - now apply iter_ext.
Qed.


(** C3. In one epoch every rank slices the same list: the permutation of
    [0, total_size) drawn from the generator reseeded with the epoch,
    reduced modulo the dataset size.  Rank [r] yields exactly
    [indices[r : total_size : num_replicas]], that is the entries at
    positions [r, r + num_replicas, ...]; and the positions read by the
    ranks [0 .. num_replicas-1] together are the positions
    [0 .. total_size-1], each exactly once.  [s0] is the sampler of any one
    rank; the constructor returns for every rank when it returns for one. *)
Theorem ranks_partition_positions {A : Type} (d : list A)
  (nr rk0 ratio e : Z) (s0 : EnlargedSampler A) (g0 : Generator) :
  1 <= nr -> 0 <= ratio ->
  __init__ d nr rk0 ratio = Ok s0 ->
  Permutation (randperm_draw (Z.to_nat (total_size s0)) (manual_seed g0 e))
              (zrange (total_size s0)) /\
  (forall (rk : Z) (g : Generator), 0 <= rk < nr ->
     exists s : EnlargedSampler A,
       __init__ d nr rk ratio = Ok s /\
       num_samples s = num_samples s0 /\
       total_size s = total_size s0 /\
       __iter__ (set_epoch s e) g =
         PyList.getslice
           (map (fun v => v mod len d)
              (randperm_draw (Z.to_nat (total_size s0)) (manual_seed g0 e)))
           rk (total_size s0) nr /\
       __iter__ (set_epoch s e) g =
         Ok (map (at_position
                    (map (fun v => v mod len d)
                       (randperm_draw (Z.to_nat (total_size s0))
                          (manual_seed g0 e))))
               (rank_positions nr (num_samples s0) rk))) /\
  Permutation (flat_map (rank_positions nr (num_samples s0)) (zrange nr))
              (zrange (total_size s0)).
Proof.
  intros Hnr Hratio Hinit0.
  destruct (init_fields _ _ _ _ _ Hinit0) as (_ & _ & _ & _ & Hceil0 & Htot0).
  assert (Hlen : 0 <= len d) by (unfold len; lia).
  assert (Hprod : 0 <= len d * ratio) by (apply Z.mul_nonneg_nonneg; lia).
  assert (Hns : 0 <= num_samples s0)
    by (apply (ceil_div_nonneg (len d * ratio) nr);
        [lia | exact Hprod | exact Hceil0]).
  split; [apply randperm_draw_perm|].
  split; [|rewrite Htot0; now apply rank_positions_partition].
  intros rk g Hrk.
  pose proof (init_any_rank d nr rk0 rk ratio s0 Hinit0) as Hinit.
  eexists. split; [exact Hinit|].
  split; [reflexivity|]. split; [now rewrite Htot0|].
  rewrite (iter_closed_form d nr rk ratio e _ g Hnr Hrk Hratio Hinit).
  cbn [total_size num_samples]. unfold epoch_indices.
  rewrite (manual_seed_reseeds g g0), Htot0.
  split; [|reflexivity].
  symmetry. apply getslice_strided; [|exact Hns|exact Hrk].
  unfold len at 1. rewrite length_map, length_randperm_draw. nia.
Qed.

(** C9. With [dataset_size >= 1], [num_replicas >= 1] and
    [0 <= rank < num_replicas], the slice
    [indices[rank : total_size : num_replicas]] of any list of [total_size]
    elements has [total_size / num_replicas = num_samples] elements, and no
    iteration of the sampler, at the initial epoch or after [set_epoch],
    ends in the assertion failure. *)
Theorem subsample_assertion_unreachable {A : Type} (d : list A)
  (nr rk ratio : Z) (s : EnlargedSampler A) :
  1 <= len d -> 1 <= nr -> 0 <= rk < nr ->
  __init__ d nr rk ratio = Ok s ->
  (forall indices : list Z, len indices = total_size s ->
     exists sl,
       PyList.getslice indices (rank s) (total_size s) (num_replicas s)
         = Ok sl /\
       len sl = num_samples s /\
       total_size s / num_replicas s = num_samples s) /\
  (forall (s' : EnlargedSampler A) (g : Generator),
     s' = s \/ (exists e, s' = set_epoch s e) ->
     __iter__ s' g <> Raise AssertionError).
Proof.
  intros Hd Hnr Hrk Hinit.
  destruct (init_fields _ _ _ _ _ Hinit) as (_ & Hn & Hr & _ & _ & Htot).
  split.
  - intros indices Hlen.
    assert (Hns : 0 <= num_samples s) by (unfold len in Hlen; nia).
    rewrite Hn, Hr, Htot. rewrite Htot in Hlen.
    rewrite (getslice_strided indices _ _ _ Hlen Hns Hrk).
    eexists. split; [reflexivity|]. split.
    + unfold len at 1. rewrite length_map.
      fold (len (rank_positions nr (num_samples s) rk)).
      rewrite length_rank_positions. lia.
    + apply Z.div_mul. lia.
  - intros s' g Hs'.
    assert (Hs : exists e, s' = set_epoch s e).
    { destruct Hs' as [-> | Hs']; [|exact Hs']. exists 0.
      rewrite (init_value _ _ _ _ _ Hinit). reflexivity. }
    destruct Hs as [e ->].
    rewrite (init_value _ _ _ _ _ Hinit). unfold set_epoch. simpl.
    destruct (Z.ltb_spec (num_samples s * nr) 0) as [Hneg|Hpos].
    + unfold __iter__, randperm. simpl.
      destruct (Z.ltb_spec (num_samples s * nr) 0) as [_|E]; [|lia].
      simpl. discriminate.
    + rewrite iter_consistent; [discriminate | nia | exact Hrk | left; lia].
Qed.

(** C10. [set_epoch] writes the epoch field and nothing else: the dataset,
    [num_replicas], [rank], [num_samples] and [total_size] are the same
    before and after, and so is the length of the sampler. *)
Theorem set_epoch_frame {A : Type} (s : EnlargedSampler A) (e : Z) :
  dataset (set_epoch s e) = dataset s /\
  num_replicas (set_epoch s e) = num_replicas s /\
  rank (set_epoch s e) = rank s /\
  num_samples (set_epoch s e) = num_samples s /\
  total_size (set_epoch s e) = total_size s /\
  __len__ (set_epoch s e) = __len__ s /\
  epoch (set_epoch s e) = e.
Proof. repeat split. Qed.

End SamplerFacts.

(* ================================================================= *)
(** * Properties of the loss utilities *)

Section ShapeFacts.

Import Flow.

Lemma left_pad_same (s : list nat) : left_pad (List.length s) s = s.
Proof. unfold left_pad. now rewrite Nat.sub_diag. Qed.

Lemma broadcast_shapes_same_rank (s1 s2 : list nat) :
  List.length s1 = List.length s2 ->
  broadcast_shapes s1 s2 = broadcast_aligned s1 s2.
Proof.
  intros E. unfold broadcast_shapes. rewrite E, Nat.max_id.
  rewrite left_pad_same. rewrite <- E. now rewrite left_pad_same.
Qed.

Lemma broadcast_aligned_refl (s : list nat) : broadcast_aligned s s = Ok s.
Proof.
  induction s as [|a s IH]; simpl; [reflexivity|].
  rewrite IH. simpl. now rewrite Nat.eqb_refl.
Qed.

Lemma broadcast_shapes_refl (s : list nat) : broadcast_shapes s s = Ok s.
Proof.
  rewrite broadcast_shapes_same_rank by reflexivity.
  apply broadcast_aligned_refl.
Qed.

(** Where the second shape has 1 or the size of the first, the broadcast
    shape has the size of the first. *)
Lemma broadcast_aligned_nth (s1 s2 s : list nat) (i a b : nat) :
  broadcast_aligned s1 s2 = Ok s ->
  nth_error s1 i = Some a -> nth_error s2 i = Some b ->
  b = 1%nat \/ b = a ->
  nth_error s i = Some a.
Proof.
  revert s2 s i.
  induction s1 as [|x s1 IH]; intros [|y s2] s i Hb H1 H2 Hab;
    try (destruct i; discriminate).
  simpl in Hb.
  destruct (broadcast_aligned s1 s2) as [rest|] eqn:Hrest; [|discriminate].
  simpl in Hb.
  destruct i as [|i]; simpl in H1, H2.
  - injection H1 as ->. injection H2 as ->.
    destruct (Nat.eqb_spec a b) as [E|E].
    + now injection Hb as <-.
    + destruct Hab as [-> | ->]; [|contradiction].
      destruct (Nat.eqb_spec a 1) as [E1|E1]; [congruence|].
      simpl in Hb. now injection Hb as <-.
  - assert (Hs : exists z, s = z :: rest).
    { destruct (x =? y)%nat; [eexists; now injection Hb as <-|].
      destruct (x =? 1)%nat; [eexists; now injection Hb as <-|].
      destruct (y =? 1)%nat; [eexists; now injection Hb as <-|discriminate]. }
    destruct Hs as [z ->]. simpl. now apply (IH s2).
Qed.

Lemma zip_with_inv {A B C : Type} (f : A -> B -> C) (da : A) (db : B)
  (ta : Tensor A) (tb : Tensor B) (t : Tensor C) :
  zip_with f da db ta tb = Ok t ->
  broadcast_shapes (shape ta) (shape tb) = Ok (shape t) /\
  List.length (data t) = List.length (indices (shape t)).
Proof.
  unfold zip_with.
  destruct (broadcast_shapes (shape ta) (shape tb)) as [s|]; simpl;
    [|discriminate].
  intros [= <-]. simpl. split; [reflexivity | apply length_map].
Qed.

End ShapeFacts.

Section ReductionFacts.

Import Flow LossUtil.

Context {R : Type} {SR : Scalar R}.

Local Open Scope string_scope.

Lemma get_enum_unsupported (reduction : string) :
  unsupported reduction -> get_enum reduction = Raise ValueError.
Proof.
  intros (Hn & Hm & Hs & He). unfold get_enum.
  destruct (String.eqb_spec reduction "none"); [contradiction|].
  destruct (String.eqb_spec reduction "mean"); [contradiction|].
  destruct (String.eqb_spec reduction "elementwise_mean"); [contradiction|].
  destruct (String.eqb_spec reduction "sum"); [contradiction|].
  reflexivity.
Qed.

(** Without a weight an unknown reduction string is refused. *)
Lemma reduce_loss_unsupported (loss : Tensor R) (reduction : string) :
  unsupported reduction -> reduce_loss loss reduction = Raise ValueError.
Proof.
  intros H. unfold reduce_loss. now rewrite get_enum_unsupported.
Qed.

Lemma weight_reduce_loss_unweighted (loss : Tensor R) (reduction : string) :
  weight_reduce_loss loss None reduction = reduce_loss loss reduction.
Proof. reflexivity. Qed.

(** With a weight, a reduction string other than "sum" and "mean" is never
    looked at: the weighted loss comes back as it is. *)
Lemma weight_reduce_loss_fallthrough (loss w : Tensor R) (ws : nat)
  (reduction : string) :
  dim w = dim loss -> size w 1 = Ok ws ->
  ws = 1%nat \/ size loss 1 = Ok ws ->
  reduction <> "sum" -> reduction <> "mean" ->
  weight_reduce_loss loss (Some w) reduction = tmul loss w.
Proof.
  intros Hdim Hws Hok Hs Hm. unfold weight_reduce_loss.
  rewrite Hdim, Nat.eqb_refl. simpl. rewrite Hws. simpl.
  assert (Hchk : (if (ws =? 1)%nat then Ok true
                  else ls <- size loss 1 ;; Ok (ws =? ls)%nat) = Ok true).
  { destruct (Nat.eqb_spec ws 1) as [E|E]; [reflexivity|].
    destruct Hok as [E1 | ->]; [contradiction|].
    simpl. now rewrite Nat.eqb_refl. }
  rewrite Hchk. simpl.
  destruct (tmul loss w) as [p|x]; simpl; [|reflexivity].
  destruct (String.eqb_spec reduction "sum"); [contradiction|].
  destruct (String.eqb_spec reduction "mean"); [contradiction|].
  reflexivity.
Qed.

(** C6. The alias "elementwise_mean" is meant to warn and then reduce as
    "mean" does; the warning goes through the name [warnings], which the
    module never binds, so the call ends in a NameError in [get_enum], in
    [reduce_loss] and in [weight_reduce_loss] without a weight, where "mean"
    returns the mean. *)
Theorem elementwise_mean_raises_name_error (loss : Tensor R) :
  get_enum "elementwise_mean" = Raise NameError /\
  reduce_loss loss "elementwise_mean" = Raise NameError /\
  weight_reduce_loss loss None "elementwise_mean" = Raise NameError /\
  reduce_loss loss "mean" = Ok (tmean loss).
Proof. repeat split. Qed.

(** C4. With reduction "mean" and a weight of the rank of the loss whose
    size in dimension 1 is 1 or that of the loss, the result is the sum of
    the product [loss * weight] divided by the normalizer: the sum of the
    weight when its size in dimension 1 exceeds 1, and that sum times the
    size of the loss in dimension 1 otherwise.  (When the two shapes do not
    broadcast, the product raises and so does the call.) *)
Theorem weighted_mean_normalizer (loss w : Tensor R) (ls ws : nat) :
  dim w = dim loss ->
  size loss 1 = Ok ls ->
  size w 1 = Ok ws ->
  ws = 1%nat \/ ws = ls ->
  weight_reduce_loss loss (Some w) "mean" =
  (p <- tmul loss w ;;
   Ok (mkTensor []
         [rdiv (sum_list (data p))
               (if (1 <? ws)%nat then sum_list (data w)
                else rmul (sum_list (data w)) (rof_nat ls))])).
Proof.
  intros Hdim Hls Hws Hok. unfold weight_reduce_loss.
  rewrite Hdim, Nat.eqb_refl. simpl. rewrite Hws, Hls. simpl.
  assert (Hchk : (if (ws =? 1)%nat then Ok true else Ok (ws =? ls)%nat)
                 = Ok true).
  { destruct (Nat.eqb_spec ws 1) as [E|E]; [reflexivity|].
    destruct Hok as [E1 | ->]; [contradiction|]. now rewrite Nat.eqb_refl. }
  rewrite Hchk. simpl.
  destruct (tmul loss w) as [p|x] eqn:Hp; simpl; [|reflexivity].
  destruct (1 <? ws)%nat; [reflexivity|].
  assert (Hsize : size p 1 = Ok ls).
  { apply zip_with_inv in Hp. destruct Hp as [Hshape _].
    rewrite broadcast_shapes_same_rank in Hshape
      by (symmetry; exact Hdim).
    unfold size in *.
    destruct (nth_error (shape loss) 1) as [a|] eqn:Ha; [|discriminate].
    destruct (nth_error (shape w) 1) as [b|] eqn:Hb; [|discriminate].
    injection Hls as ->. injection Hws as ->.
    rewrite (broadcast_aligned_nth _ _ _ 1 ls ws Hshape Ha Hb Hok).
    reflexivity. }
  rewrite Hsize. reflexivity.
Qed.

End ReductionFacts.

Section ArtifactMapFacts.

Import Flow LossUtil.

Context {R : Type} {SR : Scalar R}.

(** No scalar is below itself. *)
Hypothesis rltb_irrefl : forall x : R, rltb x x = false.

Lemma fill_where_false {X : Type} (l : list R) (xs : list X) (v : R) :
  List.length l = List.length xs ->
  fill_where l (map (fun _ => false) xs) v = l.
Proof.
  revert xs. induction l as [|x l IH]; intros [|y xs] Hlen;
    try discriminate; simpl; [reflexivity|].
  f_equal. apply IH. now injection Hlen.
Qed.

Lemma shape_eqb_true (s1 s2 : list nat) : shape_eqb s1 s2 = true -> s1 = s2.
Proof.
  unfold shape_eqb. now destruct (list_eq_dec Nat.eq_dec s1 s2).
Qed.

(** A tensor compared with itself by [<] is false everywhere. *)
Lemma tlt_self (r : Tensor R) :
  tlt r r = Ok (mkTensor (shape r)
                  (map (fun _ => false) (indices (shape r)))).
Proof.
  unfold tlt, zip_with. rewrite broadcast_shapes_refl. cbn [bind].
  unfold tabulate. do 2 f_equal. apply map_ext. intros idx.
  apply rltb_irrefl.
Qed.

(** C8, as the code has it.  When [img_output] and [img_ema] are the same
    tensor the two residuals are equal, the strict comparison
    [residual_sr < residual_ema] is false at every position, and no weight
    is zeroed: the map returned is the product of the patch-level and the
    pixel-level weights (an index error when that product has not the shape
    of the residual). *)
Theorem identical_outputs_zero_nothing (img_gt img_output : Tensor R)
  (ksize : Z) :
  get_refined_artifact_map img_gt img_output img_output ksize =
  (rw <- unmasked_weight img_gt img_output ksize ;;
   if shape_eqb (shape (fst rw)) (shape (snd rw))
   then Ok (snd rw) else Raise IndexError).
Proof.
  unfold get_refined_artifact_map, unmasked_weight.
  destruct (tsub img_gt img_output) as [d|]; cbn [bind]; [|reflexivity].
  destruct (sum_dim (tabs d) 1) as [r|]; cbn [bind]; [|reflexivity].
  destruct (var_dims r _) as [v|]; cbn [bind]; [|reflexivity].
  destruct (get_local_weights r ksize) as [pw|]; cbn [bind]; [|reflexivity].
  destruct (tmul (troot5 v) pw) as [ow|] eqn:How; cbn [bind fst snd];
    [|reflexivity].
  rewrite tlt_self. cbn [bind]. unfold setitem_mask. cbn [shape data].
  destruct (shape_eqb (shape r) (shape ow)) eqn:E; [|reflexivity].
  apply shape_eqb_true in E. apply zip_with_inv in How.
  destruct How as [_ Hlen]. rewrite E.
  rewrite fill_where_false by exact Hlen.
  now destruct ow.
Qed.

End ArtifactMapFacts.

(* ================================================================= *)
(** * The loss utilities on rational tensors *)

Section RationalExamples.

Import Flow LossUtil.

Local Open Scope string_scope.

Lemma Q_rltb_irrefl (x : Q) : rltb x x = false.
Proof. simpl. unfold Qcompare. now rewrite Z.compare_refl. Qed.

(** The calls of the docstring of [weighted_loss] that pass no weight. *)
Example l1_loss_docstring_unweighted :
  weighted_loss l1_loss (qtensor [3]%nat [0; 2; 3]) (qtensor [3]%nat [1; 1; 1])
    None "mean" tt = Ok (mkTensor [] [(4 # 3)%Q]) /\
  weighted_loss l1_loss (qtensor [3]%nat [0; 2; 3]) (qtensor [3]%nat [1; 1; 1])
    None "none" tt = Ok (qtensor [3]%nat [1; 1; 2]).
Proof. split; reflexivity. Qed.

(** The weighted mean of the docstring on tensors of two dimensions. *)
Example weighted_mean_two_dimensions :
  weight_reduce_loss (qtensor [1; 3]%nat [1; 1; 2])
    (Some (qtensor [1; 3]%nat [1; 0; 1])) "mean"
  = Ok (mkTensor [] [(3 # 2)%Q]).
Proof. reflexivity. Qed.

(** C5. Without a weight an unknown reduction string raises ValueError,
    in [reduce_loss], [weight_reduce_loss] and a decorated loss alike; with
    a weight the same string raises nothing, and the weighted elementwise
    loss is returned. *)
Theorem unknown_reduction_with_weight_returns :
  reduce_loss (qtensor [1; 3]%nat [1; 1; 2]) "unknown" = Raise ValueError /\
  weight_reduce_loss (qtensor [1; 3]%nat [1; 1; 2]) None "unknown"
    = Raise ValueError /\
  weighted_loss l1_loss (qtensor [1; 3]%nat [0; 2; 3]) (qtensor [1; 3]%nat [1; 1; 1])
    None "unknown" tt = Raise ValueError /\
  weight_reduce_loss (qtensor [1; 3]%nat [1; 1; 2])
    (Some (qtensor [1; 3]%nat [1; 0; 1])) "unknown"
    = Ok (qtensor [1; 3]%nat [1; 0; 2]) /\
  weighted_loss l1_loss (qtensor [1; 3]%nat [0; 2; 3]) (qtensor [1; 3]%nat [1; 1; 1])
    (Some (qtensor [1; 3]%nat [1; 0; 1])) "unknown" tt
    = Ok (qtensor [1; 3]%nat [1; 0; 2]).
Proof. repeat split. Qed.

(** C7. On the tensors of one dimension of the docstring, loss [1, 1, 2]
    and weight [1, 0, 1], the call with reduction "mean" does not return
    1.5: [weight.size(1)] is out of range for one dimension and the call
    ends in an IndexError, directly and through the decorated loss. *)
Theorem docstring_weighted_mean_raises :
  weight_reduce_loss (qtensor [3]%nat [1; 1; 2]) (Some (qtensor [3]%nat [1; 0; 1]))
    "mean" = Raise IndexError /\
  weighted_loss l1_loss (qtensor [3]%nat [0; 2; 3]) (qtensor [3]%nat [1; 1; 1])
    (Some (qtensor [3]%nat [1; 0; 1])) "mean" tt = Raise IndexError.
Proof. split; reflexivity. Qed.

(** C8, as stated, fails.  With a ground truth of zeros and the same 3x3
    image for [img_output] and [img_ema], window 3, the map returned is the
    map of local variances and is zero nowhere. *)
Lemma identical_outputs_keep_weights :
  get_refined_artifact_map
    (qtensor [1; 1; 3; 3]%nat [0; 0; 0; 0; 0; 0; 0; 0; 0])
    (qtensor [1; 1; 3; 3]%nat [2; 2; 2; 2; 1; 0; 0; 0; 0])
    (qtensor [1; 1; 3; 3]%nat [2; 2; 2; 2; 1; 0; 0; 0; 0]) 3
  = Ok (mkTensor [1; 1; 3; 3]%nat
          [5 # 18; 3 # 4; 11 # 18; 31 # 36; 1; 31 # 36; 11 # 18; 3 # 4;
           5 # 18]%Q) /\
  ~ (forall w, get_refined_artifact_map
       (qtensor [1; 1; 3; 3]%nat [0; 0; 0; 0; 0; 0; 0; 0; 0])
       (qtensor [1; 1; 3; 3]%nat [2; 2; 2; 2; 1; 0; 0; 0; 0])
       (qtensor [1; 1; 3; 3]%nat [2; 2; 2; 2; 1; 0; 0; 0; 0]) 3 = Ok w ->
     Forall (fun x => x == 0)%Q (data w)).
Proof.
  split; [vm_compute; reflexivity|].
  intros H.
  specialize (H _ ltac:(vm_compute; reflexivity)).
  inversion H as [|x l Hx _]. discriminate Hx.
Qed.

End RationalExamples.

(* ================================================================= *)
(** * The theorems at concrete inputs *)

Section ConcreteSampler.

Import DataSampler.

Lemma parity_reseeds (g g' : @Generator ParityRandom) (s : Z) :
  manual_seed g s = manual_seed g' s.
Proof. reflexivity. Qed.

Lemma parity_draw_perm (n : nat) (g : @Generator ParityRandom) :
  Permutation (randperm_draw n g) (map Z.of_nat (seq 0 n)).
Proof.
  simpl. destruct (Z.even g); [reflexivity|].
  symmetry. apply Permutation_rev.
Qed.

(** The true division at work: 10 / 3 and 1 / 3 as binary64 numbers, and
    the three ways in which the rounded quotient leaves the exact one. *)
Example true_division_samples :
  PyFloat.int_true_divide 10 3
    = Ok (PyFloat.mkFloat 7505999378950827 (-51)) /\
  PyFloat.int_true_divide 1 3
    = Ok (PyFloat.mkFloat 6004799503160661 (-54)) /\
  ceil_div 10 3 = Ok 4 /\
  ceil_div (2 ^ 53 + 1) 1 = Ok (2 ^ 53) /\
  ceil_div 1 (10 ^ 400) = Ok 0 /\
  ceil_div (10 ^ 400) 1 = Raise OverflowError /\
  ceil_div 1 0 = Raise ZeroDivisionError.
Proof. repeat split; vm_compute; reflexivity. Qed.


(** Ten samples, three replicas, rank 1, ratio 1, epoch 5. *)
Lemma iteration_deterministic_witness :
  len (repeat tt 10) = len (repeat 0%nat 10) /\
  __init__ (repeat tt 10) 3 1 1 = Ok (mkSampler (repeat tt 10) 3 1 0 4 12) /\
  (__iter__ (set_epoch (mkSampler (repeat tt 10) 3 1 0 4 12) 5)
     (0 : @Generator ParityRandom)
   = __iter__ (set_epoch (mkSampler (repeat 0%nat 10) 3 1 0 4 12) 5)
       (1 : @Generator ParityRandom) /\
   __iter__ (set_epoch (mkSampler (repeat tt 10) 3 1 0 4 12) 5)
     (0 : @Generator ParityRandom)
   = __iter__ (set_epoch (mkSampler (repeat tt 10) 3 1 0 4 12) 5)
       (1 : @Generator ParityRandom) /\
   __iter__ (mkSampler (repeat tt 10) 3 1 0 4 12)
     (0 : @Generator ParityRandom)
   = __iter__ (mkSampler (repeat tt 10) 3 1 0 4 12)
       (1 : @Generator ParityRandom)).
Proof.
  split; [reflexivity|]. split; [reflexivity|].
  apply (@iteration_deterministic ParityRandom parity_reseeds unit nat
           (repeat tt 10) (repeat 0%nat 10) 3 1 1 5); reflexivity.
Defined.


Lemma ranks_partition_positions_witness :
  Permutation
    (randperm_draw (FlowRandom := ParityRandom) (Z.to_nat 12)
       (manual_seed 0 5))
    (zrange 12) /\
  (forall (rk : Z) (g : @Generator ParityRandom), 0 <= rk < 3 ->
     exists s : EnlargedSampler unit,
       __init__ (repeat tt 10) 3 rk 1 = Ok s /\
       num_samples s = 4 /\
       total_size s = 12 /\
       __iter__ (set_epoch s 5) g =
         PyList.getslice
           (map (fun v => v mod len (repeat tt 10))
              (randperm_draw (Z.to_nat 12) (manual_seed 0 5)))
           rk 12 3 /\
       __iter__ (set_epoch s 5) g =
         Ok (map (at_position
                    (map (fun v => v mod len (repeat tt 10))
                       (randperm_draw (Z.to_nat 12) (manual_seed 0 5))))
               (rank_positions 3 4 rk))) /\
  Permutation (flat_map (rank_positions 3 4) (zrange 3)) (zrange 12).
Proof.
  apply (@ranks_partition_positions ParityRandom parity_reseeds
           parity_draw_perm unit (repeat tt 10) 3 1 1 5
           (mkSampler (repeat tt 10) 3 1 0 4 12) 0);
    [lia | lia | reflexivity].
Defined.

Lemma subsample_assertion_unreachable_witness :
  (forall indices : list Z, len indices = 12 ->
     exists sl,
       PyList.getslice indices 1 12 3 = Ok sl /\
       len sl = 4 /\ 12 / 3 = 4) /\
  (forall (s' : EnlargedSampler unit) (g : @Generator ParityRandom),
     s' = mkSampler (repeat tt 10) 3 1 0 4 12 \/
     (exists e, s' = set_epoch (mkSampler (repeat tt 10) 3 1 0 4 12) e) ->
     __iter__ s' g <> Raise AssertionError).
Proof.
  apply (@subsample_assertion_unreachable ParityRandom parity_draw_perm unit
           (repeat tt 10) 3 1 1 (mkSampler (repeat tt 10) 3 1 0 4 12));
    [vm_compute; discriminate | lia | lia | reflexivity].
Defined.

End ConcreteSampler.

Section ConcreteLosses.

Import Flow LossUtil.

Local Open Scope string_scope.

(** A loss of shape 2x3x2 against a weight of shape 2x1x2, and against a
    weight of its own shape. *)
Lemma weighted_mean_normalizer_witness :
  weight_reduce_loss
    (qtensor [2; 3; 2]%nat [1; 1; 2; 3; 4; 5; 6; 7; 8; 9; 10; 11])
    (Some (qtensor [2; 1; 2]%nat [1; 0; 1; 2])) "mean"
  = (p <- tmul (qtensor [2; 3; 2]%nat [1; 1; 2; 3; 4; 5; 6; 7; 8; 9; 10; 11])
            (qtensor [2; 1; 2]%nat [1; 0; 1; 2]) ;;
     Ok (mkTensor []
           [rdiv (sum_list (data p))
              (if (1 <? 1)%nat
               then sum_list (data (qtensor [2; 1; 2]%nat [1; 0; 1; 2]))
               else rmul
                      (sum_list (data (qtensor [2; 1; 2]%nat [1; 0; 1; 2])))
                      (rof_nat 3))])).
Proof.
  apply (@weighted_mean_normalizer Q Q_Scalar
           (qtensor [2; 3; 2]%nat [1; 1; 2; 3; 4; 5; 6; 7; 8; 9; 10; 11])
           (qtensor [2; 1; 2]%nat [1; 0; 1; 2]) 3 1);
    [reflexivity | reflexivity | reflexivity | left; reflexivity].
Defined.

Lemma identical_outputs_zero_nothing_witness :
  get_refined_artifact_map
    (qtensor [1; 1; 3; 3]%nat [0; 0; 0; 0; 0; 0; 0; 0; 0])
    (qtensor [1; 1; 3; 3]%nat [2; 2; 2; 2; 1; 0; 0; 0; 0])
    (qtensor [1; 1; 3; 3]%nat [2; 2; 2; 2; 1; 0; 0; 0; 0]) 3
  = (rw <- unmasked_weight
             (qtensor [1; 1; 3; 3]%nat [0; 0; 0; 0; 0; 0; 0; 0; 0])
             (qtensor [1; 1; 3; 3]%nat [2; 2; 2; 2; 1; 0; 0; 0; 0]) 3 ;;
     if shape_eqb (shape (fst rw)) (shape (snd rw))
     then Ok (snd rw) else Raise IndexError).
Proof.
  apply (@identical_outputs_zero_nothing Q Q_Scalar Q_rltb_irrefl).
Defined.

End ConcreteLosses.

(* ================================================================= *)
(** * One epoch over all the ranks *)

Section EpochCoverage.

Import DataSampler.

Context {FR : FlowRandom}.

Hypothesis manual_seed_reseeds :
  forall (g g' : Generator) (s : Z), manual_seed g s = manual_seed g' s.

Hypothesis randperm_draw_perm :
  forall (n : nat) (g : Generator),
    Permutation (randperm_draw n g) (map Z.of_nat (seq 0 n)).

Lemma result_map_ok {X Y : Type} (f : X -> result Y) (h : X -> Y)
  (l : list X) :
  (forall x, In x l -> f x = Ok (h x)) -> result_map f l = Ok (map h l).
Proof.
  induction l as [|x l IH]; intros Hf; simpl; [reflexivity|].
  rewrite (Hf x (or_introl eq_refl)). simpl.
  rewrite IH by (intros y Hy; apply Hf; now right). reflexivity.
Qed.

Lemma map_at_position_zrange (l : list Z) :
  map (at_position l) (zrange (len l)) = l.
Proof.
  unfold zrange, len. rewrite Nat2Z.id, map_map.
  apply (nth_ext _ _ 0 0).
  - now rewrite length_map, length_seq.
  - intros k Hk. rewrite length_map, length_seq in Hk.
    rewrite (nth_indep _ 0 (at_position l (Z.of_nat 0)))
      by (now rewrite length_map, length_seq).
    rewrite (map_nth (fun x => at_position l (Z.of_nat x))).
    rewrite seq_nth by exact Hk. unfold at_position.
    now rewrite Nat2Z.id.
Qed.

Lemma ceil_div_zero_ok (b : Z) : b <> 0 -> ceil_div 0 b = Ok 0.
Proof.
  intros Hb. unfold ceil_div, PyFloat.int_true_divide.
  destruct (Z.eqb_spec b 0); [contradiction | reflexivity].
Qed.

(** The sequence of one rank, from the number of samples per rank that
    the constructor computes. *)
Lemma rank_sequence_closed_form {A : Type} (d : list A)
  (nr ratio e ns : Z) (g : Z -> Generator) (g0 : Generator) (rk : Z) :
  1 <= nr -> 0 <= ratio -> 0 <= rk < nr ->
  ceil_div (len d * ratio) nr = Ok ns ->
  rank_sequence d nr ratio e g rk =
  Ok (map (at_position (epoch_indices (len d) (ns * nr) e g0))
        (rank_positions nr ns rk)).
Proof.
  intros Hnr Hratio Hrk Hq. unfold rank_sequence.
  rewrite (init_of_ceil_div d nr rk ratio ns Hq). cbn [bind].
  rewrite (iter_closed_form randperm_draw_perm d nr rk ratio e _ (g rk)
             Hnr Hrk Hratio (init_of_ceil_div d nr rk ratio ns Hq)).
  cbn [total_size num_samples]. unfold epoch_indices.
  now rewrite (manual_seed_reseeds (g rk) g0).
Qed.

Lemma all_rank_sequences_closed_form {A : Type} (d : list A)
  (nr ratio e ns : Z) (g : Z -> Generator) :
  1 <= nr -> 0 <= ratio ->
  ceil_div (len d * ratio) nr = Ok ns ->
  all_rank_sequences d nr ratio e g =
  Ok (rank_reads (epoch_indices (len d) (ns * nr) e (g 0)) nr ns).
Proof.
  intros Hnr Hratio Hq. unfold all_rank_sequences, rank_reads.
  apply result_map_ok. intros rk Hrk. apply in_zrange in Hrk.
  now apply rank_sequence_closed_form.
Qed.

(** The dividend 0 needs no bound on the divisor. *)
Lemma ceil_div_exact_or_zero (a b : Z) :
  0 <= a < 2 ^ 53 -> 1 <= b -> a = 0 \/ b < 2 ^ 1075 ->
  exists q, ceil_div a b = Ok q /\ (q - 1) * b < a <= q * b.
Proof.
  intros Ha Hb [-> | Hbb].
  - exists 0. split; [apply ceil_div_zero_ok; lia | lia].
  - apply ceil_div_exact; lia.
Qed.

Lemma rank_reads_perm (ds nr ns e : Z) (g0 : Generator) :
  1 <= nr -> 0 <= ns ->
  Permutation
    (List.concat (rank_reads (epoch_indices ds (ns * nr) e g0) nr ns))
    (map (fun p => p mod ds) (zrange (ns * nr))).
Proof.
  intros Hnr Hns. unfold rank_reads.
  set (idx := epoch_indices ds (ns * nr) e g0).
  rewrite <- (map_map (rank_positions nr ns) (map (at_position idx))).
  rewrite <- concat_map, <- flat_map_concat_map.
  rewrite (Permutation_map (at_position idx)
             (rank_positions_partition nr ns Hnr)).
  assert (Hidx : len idx = ns * nr)
    by (apply (len_epoch_indices randperm_draw_perm); nia).
  replace (map (at_position idx) (zrange (ns * nr))) with idx
    by (rewrite <- Hidx; symmetry; apply map_at_position_zrange).
  unfold idx, epoch_indices. apply Permutation_map.
  apply randperm_draw_perm.
Qed.

(** Over the ranks [0 .. nr-1] of one epoch the sequences hold, counted
    with repetitions, the numbers [p mod dataset_size] for [p] in
    [0, total_size), where [total_size] is that of the samplers ([s0] is
    the sampler of any one rank). *)
Theorem epoch_union_is_enlarged_dataset {A : Type} (d : list A)
  (nr rk0 ratio e : Z) (s0 : EnlargedSampler A) (g : Z -> Generator) :
  1 <= nr -> 0 <= ratio ->
  __init__ d nr rk0 ratio = Ok s0 ->
  exists seqs : list (list Z),
    all_rank_sequences d nr ratio e g = Ok seqs /\
    len seqs = nr /\
    Permutation (List.concat seqs)
      (map (fun p => p mod len d) (zrange (total_size s0))).
Proof.
  intros Hnr Hratio Hinit.
  destruct (init_fields _ _ _ _ _ Hinit) as (_ & _ & _ & _ & Hceil & Htot).
  assert (Hlen : 0 <= len d) by (unfold len; lia).
  assert (Hprod : 0 <= len d * ratio) by (apply Z.mul_nonneg_nonneg; lia).
  assert (Hns : 0 <= num_samples s0)
    by (apply (ceil_div_nonneg (len d * ratio) nr);
        [lia | exact Hprod | exact Hceil]).
  eexists. split; [|split].
  - now apply (all_rank_sequences_closed_form d nr ratio e (num_samples s0)).
  - unfold len, rank_reads. rewrite length_map, length_zrange. lia.
  - rewrite Htot. now apply rank_reads_perm.
Qed.

(** With a ratio of at least 1 every sample of the dataset is drawn by
    some rank in every epoch, as long as [dataset_size * ratio] is below
    2^53 and [num_replicas] below 2^1075, where the rounded quotient keeps
    the ceiling. *)
Theorem every_sample_is_drawn {A : Type} (d : list A) (nr ratio e : Z)
  (g : Z -> Generator) (v : Z) :
  1 <= nr -> 1 <= ratio -> 0 <= v < len d ->
  len d * ratio < 2 ^ 53 -> nr < 2 ^ 1075 ->
  exists (rk : Z) (l : list Z),
    0 <= rk < nr /\ rank_sequence d nr ratio e g rk = Ok l /\ In v l.
Proof.
  intros Hnr Hratio Hv Hsmall Hnrb.
  destruct (ceil_div_exact (len d * ratio) nr ltac:(nia) ltac:(lia))
    as [ns [Hq Hb]].
  assert (Hns : 0 <= ns) by nia.
  assert (Hin : In v (map (fun p => p mod len d) (zrange (ns * nr)))).
  { apply in_map_iff. exists v. split; [apply Z.mod_small; lia|].
    apply in_zrange. nia. }
  apply (Permutation_in _
           (Permutation_sym (rank_reads_perm (len d) nr ns e (g 0) Hnr Hns)))
    in Hin.
  apply in_concat in Hin. destruct Hin as [l [Hl Hvl]].
  unfold rank_reads in Hl. apply in_map_iff in Hl.
  destruct Hl as [rk [<- Hrk]]. apply in_zrange in Hrk.
  exists rk. eexists. split; [exact Hrk|]. split; [|exact Hvl].
  apply rank_sequence_closed_form; [lia | lia | lia | exact Hq].
Qed.

(** When [num_replicas] divides the dataset size, the ratio is 1 and the
    dataset size is below 2^53, the ranks of one epoch draw every sample
    exactly once between them, each rank its equal share. *)
Theorem even_split_draws_each_sample_once {A : Type} (d : list A)
  (nr e : Z) (g : Z -> Generator) :
  1 <= nr -> len d mod nr = 0 -> len d < 2 ^ 53 ->
  exists seqs : list (list Z),
    all_rank_sequences d nr 1 e g = Ok seqs /\
    Permutation (List.concat seqs) (zrange (len d)) /\
    Forall (fun l => len l * nr = len d) seqs.
Proof.
  intros Hnr Hdiv Hsmall.
  assert (Hlen : 0 <= len d) by (unfold len; lia).
  pose proof (Z.div_mod (len d) nr ltac:(lia)) as Hq.
  rewrite Hdiv in Hq.
  set (q := len d / nr) in *.
  assert (Hbig : len d * 1 = 0 \/ nr < 2 ^ 1075).
  { destruct (Z.eq_dec (len d) 0) as [E|E]; [left; lia | right].
    assert (1 <= q) by nia.
    apply (Z.le_lt_trans _ (len d)); [nia|].
    apply (Z.lt_trans _ (2 ^ 53)); [exact Hsmall | reflexivity]. }
  destruct (ceil_div_exact_or_zero (len d * 1) nr ltac:(lia) Hnr Hbig)
    as [ns [Hc Hb]].
  assert (Hlo : ns - 1 < q) by (apply (Z.mul_lt_mono_pos_l nr); lia).
  assert (Hhi : q <= ns) by (apply (Z.mul_le_mono_pos_l _ _ nr); lia).
  assert (Htot : ns * nr = len d) by nia.
  assert (Hns : 0 <= ns) by nia.
  eexists. split;
    [apply (all_rank_sequences_closed_form d nr 1 e ns); [lia | lia | exact Hc]|].
  split.
  - rewrite (rank_reads_perm (len d) nr ns e (g 0) Hnr Hns).
    rewrite Htot.
    rewrite (map_ext_in _ (fun p => p)); [now rewrite map_id|].
    intros p Hp. apply in_zrange in Hp. apply Z.mod_small. lia.
  - apply Forall_forall. intros l Hl. unfold rank_reads in Hl.
    apply in_map_iff in Hl. destruct Hl as [rk [<- _]].
    unfold len at 1. rewrite length_map.
    fold (len (rank_positions nr ns rk)).
    rewrite length_rank_positions. lia.
Qed.

Lemma length_flat_map_pick {X : Type} (l : list X) (ps : list Z) :
  (List.length (flat_map (PyList.pick l) ps) <= List.length ps)%nat.
Proof.
  induction ps as [|p ps IH]; simpl; [lia|].
  rewrite length_app. unfold PyList.pick at 1.
  destruct (p <? 0); simpl; [lia|].
  destruct (nth_error l (Z.to_nat p)); simpl; lia.
Qed.

(** A slice that starts at [rk >= nr] is shorter than [ns]. *)
Lemma slice_positions_late_start (ns nr rk : Z) :
  1 <= ns -> 1 <= nr -> nr <= rk ->
  exists ps, PyList.slice_positions (ns * nr) rk (ns * nr) nr = Ok ps /\
             len ps < ns.
Proof.
  intros Hns Hnr Hrk.
  unfold PyList.slice_positions, PyList.adjust.
  destruct (Z.eqb_spec nr 0) as [E|_]; [lia|].
  destruct (Z.ltb_spec 0 nr) as [_|E]; [|lia].
  destruct (Z.ltb_spec rk 0) as [E|_]; [lia|].
  destruct (Z.ltb_spec (ns * nr) 0) as [E|_]; [nia|].
  destruct (Z.leb_spec (ns * nr) (ns * nr)) as [_|E]; [|lia].
  destruct (Z.leb_spec (ns * nr) rk) as [E|E]; cbv zeta.
  - destruct (Z.ltb_spec (ns * nr) (ns * nr)) as [E'|_]; [lia|].
    eexists. split; [reflexivity|]. cbn. lia.
  - destruct (Z.ltb_spec rk (ns * nr)) as [_|E']; [|lia].
    eexists. split; [reflexivity|].
    unfold len. rewrite length_map, length_zrange.
    assert (Hq : (ns * nr - rk - 1) / nr < ns - 1)
      by (apply Z.div_lt_upper_bound; nia).
    assert (H0 : 0 <= (ns * nr - rk - 1) / nr)
      by (apply Z.div_pos; lia).
    lia.
Qed.

Lemma getslice_late_start (l : list Z) (ns nr rk : Z) :
  len l = ns * nr -> 1 <= ns -> 1 <= nr -> nr <= rk ->
  exists sl, PyList.getslice l rk (ns * nr) nr = Ok sl /\ len sl < ns.
Proof.
  intros Hl Hns Hnr Hrk. unfold PyList.getslice. rewrite Hl.
  destruct (slice_positions_late_start ns nr rk Hns Hnr Hrk)
    as [ps [-> Hps]].
  cbn [bind]. eexists. split; [reflexivity|].
  pose proof (length_flat_map_pick l ps) as Hle. unfold len in *. lia.
Qed.

(** A rank of [num_replicas] or more is caught by the assertion: when the
    sampler has at least one sample per rank, the slice comes out short and
    the iteration ends in the assertion failure. *)
Theorem rank_beyond_replicas_fails_assertion {A : Type} (d : list A)
  (nr rk ratio e : Z) (s : EnlargedSampler A) (g : Generator) :
  1 <= nr -> nr <= rk ->
  __init__ d nr rk ratio = Ok s ->
  1 <= num_samples s ->
  __iter__ (set_epoch s e) g = Raise AssertionError.
Proof.
  intros Hnr Hrk Hinit Hns.
  destruct (init_fields _ _ _ _ _ Hinit) as (_ & _ & _ & _ & Hceil & _).
  assert (Hd : len d <> 0).
  { intros E0. rewrite E0 in Hceil. simpl in Hceil.
    apply ceil_div_zero in Hceil. lia. }
  rewrite (init_value _ _ _ _ _ Hinit).
  set (ns := num_samples s) in *.
  unfold set_epoch, __iter__. cbn [dataset num_replicas rank epoch
    num_samples total_size]. unfold randperm.
  destruct (Z.ltb_spec (ns * nr) 0) as [E|_]; [nia|]. cbn [bind].
  rewrite mod_each_ok by (right; exact Hd). cbn [bind].
  fold (epoch_indices (len d) (ns * nr) e g).
  destruct (getslice_late_start (epoch_indices (len d) (ns * nr) e g)
              ns nr rk) as [sl [Hsl Hlt]]; try lia.
  { apply (len_epoch_indices randperm_draw_perm). nia. }
  rewrite Hsl. cbn [bind].
  destruct (Z.eqb_spec (len sl) ns) as [E|_]; [lia | reflexivity].
Qed.

Lemma slice_positions_of_empty (start step : Z) :
  step <> 0 -> PyList.slice_positions 0 start 0 step = Ok [].
Proof.
  intros Hstep. unfold PyList.slice_positions, PyList.adjust.
  destruct (Z.eqb_spec step 0) as [E|_]; [contradiction|].
  destruct (0 <? step); simpl.
  - destruct (Z.ltb_spec start 0) as [E|E].
    + rewrite Z.add_0_r. destruct (Z.ltb_spec start 0); [reflexivity | lia].
    + destruct (Z.leb_spec 0 start); [reflexivity | lia].
  - destruct (Z.ltb_spec start 0) as [E|E].
    + rewrite Z.add_0_r. destruct (Z.ltb_spec start 0); [reflexivity | lia].
    + destruct (Z.leb_spec 0 start); [reflexivity | lia].
Qed.

(** An empty dataset gives a sampler of length 0 whose iteration returns
    the empty sequence, for any rank, ratio and epoch and any
    [num_replicas] other than 0: the modulo by the dataset size is never
    taken. *)
Theorem empty_dataset_iterates_empty {A : Type} (nr rk ratio e : Z)
  (g : Generator) :
  nr <> 0 ->
  exists s : EnlargedSampler A,
    __init__ [] nr rk ratio = Ok s /\
    __len__ s = 0 /\
    __iter__ (set_epoch s e) g = Ok [].
Proof.
  intros Hnr.
  assert (Hinit : __init__ (@nil A) nr rk ratio
                  = Ok (mkSampler [] nr rk 0 0 (0 * nr)))
    by (apply init_of_ceil_div; now apply ceil_div_zero_ok).
  eexists. split; [exact Hinit|]. split; [reflexivity|].
  unfold set_epoch, __iter__. cbn [dataset num_replicas rank epoch
    num_samples total_size Z.mul]. unfold randperm. cbn [Z.ltb Z.compare bind].
  assert (Hdraw : randperm_draw (Z.to_nat 0) (manual_seed g e) = [])
    by apply length_zero_iff_nil, (length_randperm_draw randperm_draw_perm).
  rewrite Hdraw. cbn [mod_each bind].
  unfold PyList.getslice. cbn [len List.length Z.of_nat].
  rewrite slice_positions_of_empty by exact Hnr. reflexivity.
Qed.

End EpochCoverage.

(* ================================================================= *)
(** * The layout of tensors *)

Section LayoutFacts.

Import Flow.

Local Open Scope nat_scope.

Lemma flat_map_seq_blocks (m n : nat) :
  flat_map (fun i => seq (i * m) m) (seq 0 n) = seq 0 (n * m).
Proof.
  induction n as [|n IH]; [reflexivity|].
  rewrite seq_S, flat_map_app, IH. simpl. rewrite app_nil_r.
  replace (m + n * m) with (n * m + m) by lia.
  now rewrite seq_app.
Qed.

Lemma map_add_seq (a m : nat) : map (fun k => a + k) (seq 0 m) = seq a m.
Proof.
  revert a. induction m as [|m IH]; intros a; [reflexivity|].
  simpl. rewrite Nat.add_0_r. f_equal.
  rewrite <- seq_shift, map_map.
  rewrite <- (IH (S a)). apply map_ext. intros k. lia.
Qed.

(** The offsets of the indices of a shape, in order, are 0, 1, 2, ... *)
Lemma map_ravel_indices (s : list nat) :
  map (ravel s) (indices s) = seq 0 (numel s).
Proof.
  induction s as [|n s IH]; [reflexivity|].
  cbn [indices numel fold_right]. fold (numel s).
  rewrite <- flat_map_seq_blocks.
  generalize (seq 0 n). intros l.
  induction l as [|i l IHl]; [reflexivity|].
  cbn [flat_map]. rewrite map_app, IHl. f_equal.
  rewrite map_map. cbn [ravel].
  rewrite <- map_add_seq, <- IH, map_map. reflexivity.
Qed.

Lemma length_indices (s : list nat) : List.length (indices s) = numel s.
Proof.
  rewrite <- (length_map (ravel s)), map_ravel_indices. apply length_seq.
Qed.

Lemma ravel_nth_error (s idx : list nat) (k : nat) :
  nth_error (indices s) k = Some idx -> ravel s idx = k.
Proof.
  intros Hk.
  pose proof (map_nth_error (ravel s) _ _ Hk) as Hr.
  rewrite map_ravel_indices in Hr.
  assert (Hlt : k < numel s).
  { rewrite <- length_indices. apply nth_error_Some. congruence. }
  rewrite (nth_error_nth' _ 0) in Hr by (now rewrite length_seq).
  rewrite seq_nth in Hr by exact Hlt. simpl in Hr. congruence.
Qed.

(** Reading a tabulated tensor at an index of its shape gives the
    tabulated value. *)
Lemma item_tabulate {E : Type} (d : E) (s : list nat) (f : list nat -> E)
  (idx : list nat) :
  In idx (indices s) -> item d (tabulate s f) idx = f idx.
Proof.
  intros Hin. apply In_nth_error in Hin. destruct Hin as [k Hk].
  unfold item, tabulate. cbn [shape data].
  rewrite (ravel_nth_error s idx k Hk).
  apply nth_error_nth. now apply map_nth_error.
Qed.

Lemma in_indices_bcast (s idx : list nat) :
  In idx (indices s) ->
  List.length idx = List.length s /\
  map (fun ni => if fst ni =? 1 then 0 else snd ni) (combine s idx) = idx.
Proof.
  revert idx. induction s as [|n s IH]; intros idx Hin.
  - destruct Hin as [<- | []]. split; reflexivity.
  - cbn [indices] in Hin. apply in_flat_map in Hin.
    destruct Hin as [i [Hi Hin]]. apply in_map_iff in Hin.
    destruct Hin as [idx' [<- Hin']]. apply in_seq in Hi.
    destruct (IH idx' Hin') as [Hlen Hmap]. split.
    + simpl. now rewrite Hlen.
    + cbn [combine map fst snd]. rewrite Hmap. f_equal.
      destruct (Nat.eqb_spec n 1); lia.
Qed.

(** An index of a shape reads an operand of that shape where it stands. *)
Lemma bcast_index_id (s idx : list nat) :
  In idx (indices s) -> bcast_index s idx = idx.
Proof.
  intros Hin. destruct (in_indices_bcast s idx Hin) as [Hlen Hmap].
  unfold bcast_index. rewrite Hlen, Nat.sub_diag. exact Hmap.
Qed.

Lemma map_nth_pair_seq {A B C : Type} (f : A -> B -> C) (da : A) (db : B)
  (la : list A) (lb : list B) (n : nat) :
  List.length la = n -> List.length lb = n ->
  map (fun k => f (nth k la da) (nth k lb db)) (seq 0 n) = zip_lists f la lb.
Proof.
  revert lb n. induction la as [|a la IH]; intros [|b lb] [|n] Ha Hb;
    try discriminate; [reflexivity|].
  cbn [seq map]. rewrite <- seq_shift, map_map. unfold zip_lists.
  cbn [combine map fst snd nth]. f_equal.
  apply IH; simpl in *; lia.
Qed.

(** On two tensors of one shape the broadcasting operation is the
    operation element by element. *)
Lemma zip_with_same_shape {A B C : Type} (f : A -> B -> C) (da : A) (db : B)
  (ta : Tensor A) (tb : Tensor B) :
  shape tb = shape ta -> well_formed ta -> well_formed tb ->
  zip_with f da db ta tb =
  Ok (mkTensor (shape ta) (zip_lists f (data ta) (data tb))).
Proof.
  intros Hs Ha Hb. unfold zip_with. rewrite Hs, broadcast_shapes_refl.
  cbn [bind]. unfold tabulate. do 2 f_equal.
  rewrite <- (map_nth_pair_seq f da db _ _ (numel (shape ta)));
    [| exact Ha | now rewrite <- Hs].
  rewrite <- map_ravel_indices, map_map.
  apply map_ext_in. intros idx Hin. unfold item.
  rewrite Hs, (bcast_index_id _ _ Hin). reflexivity.
Qed.

End LayoutFacts.

(* ================================================================= *)
(** * Weights: what is refused and what is computed *)

Section WeightFacts.

Import Flow LossUtil.

Context {R : Type} {SR : Scalar R}.

Local Open Scope string_scope.

(** A weight whose rank differs from that of the loss, or whose size in
    dimension 1 is neither 1 nor that of the loss, fails an assertion,
    whatever the reduction string, known or not. *)
Theorem weight_shape_mismatch_asserts (loss w : Tensor R)
  (reduction : string) :
  dim w <> dim loss \/
  (exists ws ls, size w 1 = Ok ws /\ size loss 1 = Ok ls /\
                 ws <> 1%nat /\ ws <> ls) ->
  weight_reduce_loss loss (Some w) reduction = Raise AssertionError.
Proof.
  intros H. unfold weight_reduce_loss.
  destruct (Nat.eqb_spec (dim w) (dim loss)) as [E|E]; [|reflexivity].
  destruct H as [H | (ws & ls & Hws & Hls & H1 & H2)]; [contradiction|].
  cbn [py_assert bind]. rewrite Hws, Hls. cbn [bind].
  destruct (Nat.eqb_spec ws 1) as [E1|_]; [contradiction|].
  cbn [bind].
  destruct (Nat.eqb_spec ws ls) as [E2|_]; [contradiction|].
  reflexivity.
Qed.

(** With a weight, tensors of fewer than two dimensions are refused with
    an index error, whatever the reduction: dimension 1 does not exist. *)
Theorem weight_needs_two_dimensions (loss w : Tensor R)
  (reduction : string) :
  dim w = dim loss -> (dim loss <= 1)%nat ->
  weight_reduce_loss loss (Some w) reduction = Raise IndexError.
Proof.
  intros Hdim Hrank. unfold weight_reduce_loss.
  rewrite Hdim, Nat.eqb_refl. cbn [py_assert bind].
  assert (Hsz : size w 1 = Raise IndexError).
  { unfold size. destruct (nth_error (shape w) 1) eqn:E; [|reflexivity].
    assert (1 < List.length (shape w))%nat
      by (apply nth_error_Some; congruence).
    unfold dim in *. lia. }
  rewrite Hsz. reflexivity.
Qed.

Lemma size_same_shape (a b : Tensor R) (i : nat) :
  shape b = shape a -> size b i = size a i.
Proof. intros E. unfold size. now rewrite E. Qed.

Lemma size_exists (t : Tensor R) (i : nat) :
  (i < dim t)%nat -> exists n, size t i = Ok n.
Proof.
  intros Hi. unfold size, dim in *.
  destruct (nth_error (shape t) i) eqn:E; [eauto|].
  apply nth_error_None in E. lia.
Qed.

(** With a weight of the shape of the loss (two dimensions or more) the
    three reductions compute, from the products [l_i * w_i] taken element by
    element: the products themselves in the shape of the loss ("none"),
    their sum ("sum"), and their sum over the normalizer ("mean"). *)
Theorem same_shape_weight_is_elementwise (loss w : Tensor R) :
  shape w = shape loss -> well_formed loss -> well_formed w ->
  (2 <= dim loss)%nat ->
  exists c : nat,
    size loss 1 = Ok c /\
    weight_reduce_loss loss (Some w) "none" =
      Ok (mkTensor (shape loss) (zip_lists rmul (data loss) (data w))) /\
    weight_reduce_loss loss (Some w) "sum" =
      Ok (mkTensor [] [sum_list (zip_lists rmul (data loss) (data w))]) /\
    weight_reduce_loss loss (Some w) "mean" =
      Ok (mkTensor []
            [rdiv (sum_list (zip_lists rmul (data loss) (data w)))
               (if (1 <? c)%nat then sum_list (data w)
                else rmul (sum_list (data w)) (rof_nat c))]).
Proof.
  intros Hs Hl Hw Hrank.
  destruct (size_exists loss 1 ltac:(lia)) as [c Hc].
  assert (Hwc : size w 1 = Ok c) by (now rewrite (size_same_shape loss w)).
  assert (Hdim : dim w = dim loss) by (unfold dim; now rewrite Hs).
  assert (Hmul : tmul loss w =
                 Ok (mkTensor (shape loss)
                       (zip_lists rmul (data loss) (data w))))
    by (now apply zip_with_same_shape).
  exists c. split; [exact Hc|]. split; [|split].
  - rewrite (weight_reduce_loss_fallthrough loss w c);
      [exact Hmul | exact Hdim | exact Hwc | now right
      | discriminate | discriminate].
  - unfold weight_reduce_loss.
    rewrite Hdim, Nat.eqb_refl. cbn [py_assert bind]. rewrite Hwc, Hc.
    cbn [bind]. rewrite Nat.eqb_refl.
    destruct (c =? 1)%nat; cbn [py_assert bind]; now rewrite Hmul.
  - unfold weight_reduce_loss.
    rewrite Hdim, Nat.eqb_refl. cbn [py_assert bind]. rewrite Hwc, Hc.
    cbn [bind]. rewrite Nat.eqb_refl.
    assert (Hpc : size (mkTensor (shape loss)
                          (zip_lists rmul (data loss) (data w))) 1 = Ok c)
      by exact Hc.
    destruct (c =? 1)%nat; cbn [py_assert bind]; rewrite Hmul;
      cbn [bind String.eqb Ascii.eqb Bool.eqb]; rewrite Hpc;
      destruct (1 <? c)%nat; reflexivity.
Qed.

End WeightFacts.

(* ================================================================= *)
(** * The artifact map, position by position *)

Section ArtifactMapRule.

Import Flow LossUtil.

Context {R : Type} {SR : Scalar R}.

Lemma shape_eqb_refl (s : list nat) : shape_eqb s s = true.
Proof.
  unfold shape_eqb. destruct (list_eq_dec Nat.eq_dec s s); congruence.
Qed.

Lemma nth_fill_where (l : list R) (ms : list bool) (v d : R) (k : nat) :
  List.length l = List.length ms -> (k < List.length l)%nat ->
  nth k (fill_where l ms v) d = if nth k ms false then v else nth k l d.
Proof.
  revert ms k. induction l as [|x l IH]; intros [|m ms] k Hlen Hk;
    try discriminate; simpl in Hk; [lia|].
  destruct k as [|k]; [reflexivity|]. cbn [fill_where nth].
  apply IH; simpl in *; lia.
Qed.

(** The map that [get_refined_artifact_map] returns: at a position where
    the residual of the output is below the residual of the EMA output the
    weight is zero; at every other position it is the product of the
    patch-level and the pixel-level weight. *)
Theorem artifact_map_zeroing_rule (img_gt img_output img_ema : Tensor R)
  (ksize : Z) (residual_ema residual_sr overall : Tensor R) :
  residual img_gt img_ema = Ok residual_ema ->
  unmasked_weight img_gt img_output ksize = Ok (residual_sr, overall) ->
  shape residual_ema = shape residual_sr ->
  shape overall = shape residual_sr ->
  exists w : Tensor R,
    get_refined_artifact_map img_gt img_output img_ema ksize = Ok w /\
    shape w = shape residual_sr /\
    forall idx, In idx (indices (shape residual_sr)) ->
      item rzero w idx =
      if rltb (item rzero residual_sr idx) (item rzero residual_ema idx)
      then rzero else item rzero overall idx.
Proof.
  intros Hema Hsr Hse Hso.
  unfold get_refined_artifact_map. unfold residual in Hema.
  unfold unmasked_weight in Hsr.
  destruct (tsub img_gt img_ema) as [d_ema|]; cbn [bind] in *;
    [|discriminate].
  rewrite Hema. cbn [bind].
  destruct (tsub img_gt img_output) as [d_sr|]; cbn [bind] in *;
    [|discriminate].
  destruct (sum_dim (tabs d_sr) 1) as [rs|]; cbn [bind] in *;
    [|discriminate].
  destruct (var_dims rs _) as [v|]; cbn [bind] in *; [|discriminate].
  destruct (get_local_weights rs ksize) as [pw|]; cbn [bind] in *;
    [|discriminate].
  destruct (tmul (troot5 v) pw) as [ow|] eqn:How; cbn [bind] in *;
    [|discriminate].
  injection Hsr as -> ->.
  apply zip_with_inv in How. destruct How as [_ Hlen].
  rewrite Hso in Hlen.
  unfold tlt, zip_with. rewrite Hse, broadcast_shapes_refl. cbn [bind].
  unfold setitem_mask, tabulate. cbn [shape data].
  rewrite Hso, shape_eqb_refl.
  eexists. split; [reflexivity|]. split; [reflexivity|].
  intros idx Hin. unfold item at 1. cbn [shape data].
  destruct (In_nth_error _ _ Hin) as [k Hk].
  rewrite (ravel_nth_error _ _ _ Hk).
  assert (Hlt : (k < List.length (indices (shape residual_sr)))%nat)
    by (apply nth_error_Some; congruence).
  rewrite nth_fill_where;
    [| now rewrite length_map | now rewrite Hlen].
  rewrite (nth_error_nth _ _ false (map_nth_error _ _ _ Hk)).
  rewrite (bcast_index_id _ _ Hin).
  unfold item at 5. rewrite Hso, (ravel_nth_error _ _ _ Hk). reflexivity.
Qed.

End ArtifactMapRule.

(* ================================================================= *)
(** * The shape of the artifact map *)

Section ArtifactMapShape.

Import Flow LossUtil.

Context {R : Type} {SR : Scalar R}.

Local Open Scope nat_scope.

Lemma residual_shape (img_gt img : Tensor R) (b c h w : nat) :
  shape img_gt = [b; c; h; w] -> shape img = [b; c; h; w] ->
  exists r, residual img_gt img = Ok r /\ shape r = [b; 1; h; w].
Proof.
  intros Hg Hi. unfold residual, tsub, zip_with.
  rewrite Hg, Hi, broadcast_shapes_refl. cbn [bind].
  eexists. split; reflexivity.
Qed.

Lemma patch_variance_shape (r : Tensor R) (b h w : nat) :
  shape r = [b; 1; h; w] ->
  exists v, var_dims r [-1; -2; -3]%Z = Ok v /\ shape v = [b; 1; 1; 1].
Proof.
  intros Hr. unfold var_dims, dim, reduce_keepdim. rewrite Hr.
  eexists. split; reflexivity.
Qed.

Lemma odd_window_arith (p : nat) :
  Z.to_nat ((Z.of_nat (2 * p + 1) - 1) / 2) = p /\
  Z.to_nat (Z.of_nat (2 * p + 1)) = 2 * p + 1.
Proof.
  split; [|lia].
  replace (Z.of_nat (2 * p + 1) - 1)%Z with (Z.of_nat p * 2)%Z by lia.
  rewrite Z.div_mul by lia. lia.
Qed.

Lemma pad_reflect_shape (r : Tensor R) (b c h w p : nat) :
  shape r = [b; c; h; w] -> p < h -> p < w ->
  exists t, pad_reflect r p = Ok t /\
            shape t = [b; c; h + 2 * p; w + 2 * p].
Proof.
  intros Hr Hh Hw. unfold pad_reflect. rewrite Hr.
  destruct (Nat.ltb_spec p h) as [_|E]; [|lia].
  destruct (Nat.ltb_spec p w) as [_|E]; [|lia].
  eexists. split; reflexivity.
Qed.

Lemma unfold_shape (t : Tensor R) (d n k : nat) :
  nth_error (shape t) d = Some n -> k <= n ->
  exists u, unfold t d k 1 = Ok u /\
            shape u = set_nth d (n - k + 1) (shape t) ++ [k].
Proof.
  intros Hn Hk. unfold unfold. rewrite Hn.
  destruct (Nat.leb_spec k n) as [_|E]; [|lia].
  cbn [andb Nat.leb]. rewrite Nat.div_1_r.
  eexists. split; reflexivity.
Qed.

Lemma window_variance_shape (u : Tensor R) (b c h w k1 k2 : nat) :
  shape u = [b; c; h; w; k1; k2] ->
  exists v, var_dims u [-1; -2]%Z = Ok v /\ shape v = [b; c; h; w; 1; 1].
Proof.
  intros Hu. unfold var_dims, dim, reduce_keepdim. rewrite Hu.
  eexists. split; reflexivity.
Qed.

Lemma squeeze_last_two (v : Tensor R) (b c h w : nat) :
  shape v = [b; c; h; w; 1; 1] ->
  exists pw, (v' <- squeeze v (-1) ;; squeeze v' (-1)) = Ok pw /\
             shape pw = [b; c; h; w].
Proof.
  intros Hv. unfold squeeze at 1. unfold dim. rewrite Hv.
  cbn. eexists. split; reflexivity.
Qed.

(** For an odd window the local weights have the shape of the residual. *)
Lemma get_local_weights_shape (r : Tensor R) (b c h w p : nat) :
  shape r = [b; c; h; w] -> p < h -> p < w ->
  exists pw, get_local_weights r (Z.of_nat (2 * p + 1)) = Ok pw /\
             shape pw = [b; c; h; w].
Proof.
  intros Hr Hh Hw. unfold get_local_weights.
  destruct (Z.leb_spec (Z.of_nat (2 * p + 1)) 0) as [E|_]; [lia|].
  destruct (odd_window_arith p) as [-> ->].
  destruct (pad_reflect_shape r b c h w p Hr Hh Hw) as [t [-> Ht]].
  cbn [bind].
  destruct (unfold_shape t 2 (h + 2 * p) (2 * p + 1)) as [u1 [-> Hu1]];
    [now rewrite Ht | lia |].
  cbn [bind]. rewrite Ht in Hu1. cbn [set_nth app] in Hu1.
  replace (h + 2 * p - (2 * p + 1) + 1) with h in Hu1 by lia.
  destruct (unfold_shape u1 3 (w + 2 * p) (2 * p + 1)) as [u2 [-> Hu2]];
    [now rewrite Hu1 | lia |].
  cbn [bind]. rewrite Hu1 in Hu2. cbn [set_nth app] in Hu2.
  replace (w + 2 * p - (2 * p + 1) + 1) with w in Hu2 by lia.
  destruct (window_variance_shape u2 _ _ _ _ _ _ Hu2) as [v [-> Hv]].
  cbn [bind].
  destruct (squeeze_last_two v _ _ _ _ Hv) as [pw [Hpw Hs]].
  exists pw. split; [|exact Hs].
  rewrite <- Hpw. destruct (squeeze v (-1)) as [a|]; cbn [bind];
    [destruct (squeeze a (-1)); reflexivity | reflexivity].
Qed.

Lemma patch_times_pixel_shape (v pw : Tensor R) (b h w : nat) :
  shape v = [b; 1; 1; 1] -> shape pw = [b; 1; h; w] ->
  exists ow, tmul v pw = Ok ow /\ shape ow = [b; 1; h; w].
Proof.
  intros Hv Hp. unfold tmul, zip_with.
  rewrite broadcast_shapes_same_rank by (now rewrite Hv, Hp).
  rewrite Hv, Hp. cbn [broadcast_aligned bind].
  destruct (Nat.eqb_spec 1 w) as [<-|_]; destruct (Nat.eqb_spec 1 h) as [<-|_];
    cbn [bind Nat.eqb]; rewrite Nat.eqb_refl; cbn [bind];
    eexists; split; reflexivity.
Qed.

(** On three images of one shape [b, c, h, w], with an odd window
    [2 p + 1] whose half [p] is smaller than both sides, the artifact map
    is returned, and it has the shape [b, 1, h, w]. *)
Theorem artifact_map_shape (img_gt img_output img_ema : Tensor R)
  (b c h w p : nat) :
  shape img_gt = [b; c; h; w] ->
  shape img_output = [b; c; h; w] ->
  shape img_ema = [b; c; h; w] ->
  p < h -> p < w ->
  exists m, get_refined_artifact_map img_gt img_output img_ema
              (Z.of_nat (2 * p + 1)) = Ok m /\
            shape m = [b; 1; h; w].
Proof.
  intros Hg Ho He Hh Hw.
  destruct (residual_shape img_gt img_ema b c h w Hg He) as [re [Hre Hse]].
  destruct (residual_shape img_gt img_output b c h w Hg Ho)
    as [rs [Hrs Hss]].
  destruct (patch_variance_shape rs b h w Hss) as [v [Hv Hsv]].
  destruct (get_local_weights_shape rs b 1 h w p Hss Hh Hw)
    as [pw [Hpw Hsp]].
  destruct (patch_times_pixel_shape (troot5 v) pw b h w Hsv Hsp)
    as [ow [How Hso]].
  unfold get_refined_artifact_map. unfold residual in Hre, Hrs.
  destruct (tsub img_gt img_ema); cbn [bind] in *; [|discriminate].
  rewrite Hre. cbn [bind].
  destruct (tsub img_gt img_output); cbn [bind] in *; [|discriminate].
  rewrite Hrs. cbn [bind]. rewrite Hv. cbn [bind]. rewrite Hpw.
  cbn [bind]. rewrite How. cbn [bind].
  unfold tlt, zip_with. rewrite Hss, Hse, broadcast_shapes_refl.
  cbn [bind]. unfold setitem_mask, tabulate. cbn [shape]. rewrite Hso.
  rewrite shape_eqb_refl. eexists. split; reflexivity.
Qed.

Lemma even_window_arith (p : nat) :
  Z.to_nat ((Z.of_nat (2 * p + 2) - 1) / 2) = p /\
  Z.to_nat (Z.of_nat (2 * p + 2)) = 2 * p + 2.
Proof.
  split; [|lia].
  rewrite <- (Z.div_unique (Z.of_nat (2 * p + 2) - 1) 2 (Z.of_nat p) 1);
    lia.
Qed.

(** For an even window the local weights lose one row and one column. *)
Lemma get_local_weights_shape_even (r : Tensor R) (b c h w p : nat) :
  shape r = [b; c; h; w] -> p < h -> p < w -> 2 <= h -> 2 <= w ->
  exists pw, get_local_weights r (Z.of_nat (2 * p + 2)) = Ok pw /\
             shape pw = [b; c; h - 1; w - 1].
Proof.
  intros Hr Hh Hw Hh2 Hw2. unfold get_local_weights.
  destruct (Z.leb_spec (Z.of_nat (2 * p + 2)) 0) as [E|_]; [lia|].
  destruct (even_window_arith p) as [-> ->].
  destruct (pad_reflect_shape r b c h w p Hr Hh Hw) as [t [-> Ht]].
  cbn [bind].
  destruct (unfold_shape t 2 (h + 2 * p) (2 * p + 2)) as [u1 [-> Hu1]];
    [now rewrite Ht | lia |].
  cbn [bind]. rewrite Ht in Hu1. cbn [set_nth app] in Hu1.
  replace (h + 2 * p - (2 * p + 2) + 1) with (h - 1) in Hu1 by lia.
  destruct (unfold_shape u1 3 (w + 2 * p) (2 * p + 2)) as [u2 [-> Hu2]];
    [now rewrite Hu1 | lia |].
  cbn [bind]. rewrite Hu1 in Hu2. cbn [set_nth app] in Hu2.
  replace (w + 2 * p - (2 * p + 2) + 1) with (w - 1) in Hu2 by lia.
  destruct (window_variance_shape u2 _ _ _ _ _ _ Hu2) as [v [-> Hv]].
  cbn [bind].
  destruct (squeeze_last_two v _ _ _ _ Hv) as [pw [Hpw Hs]].
  exists pw. split; [|exact Hs].
  rewrite <- Hpw. destruct (squeeze v (-1)) as [a|]; cbn [bind];
    [destruct (squeeze a (-1)); reflexivity | reflexivity].
Qed.

(** With an even window [2 p + 2] the weights come out one row and one
    column smaller than the residuals, and the masked assignment refuses
    the mask: on images of one shape with sides of 2 or more the call ends
    in an index error. *)
Theorem artifact_map_even_window_raises (img_gt img_output img_ema : Tensor R)
  (b c h w p : nat) :
  shape img_gt = [b; c; h; w] ->
  shape img_output = [b; c; h; w] ->
  shape img_ema = [b; c; h; w] ->
  p < h -> p < w -> 2 <= h -> 2 <= w ->
  get_refined_artifact_map img_gt img_output img_ema
    (Z.of_nat (2 * p + 2)) = Raise IndexError.
Proof.
  intros Hg Ho He Hh Hw Hh2 Hw2.
  destruct (residual_shape img_gt img_ema b c h w Hg He) as [re [Hre Hse]].
  destruct (residual_shape img_gt img_output b c h w Hg Ho)
    as [rs [Hrs Hss]].
  destruct (patch_variance_shape rs b h w Hss) as [v [Hv Hsv]].
  destruct (get_local_weights_shape_even rs b 1 h w p Hss Hh Hw Hh2 Hw2)
    as [pw [Hpw Hsp]].
  destruct (patch_times_pixel_shape (troot5 v) pw b (h - 1) (w - 1) Hsv Hsp)
    as [ow [How Hso]].
  unfold get_refined_artifact_map. unfold residual in Hre, Hrs.
  destruct (tsub img_gt img_ema); cbn [bind] in *; [|discriminate].
  rewrite Hre. cbn [bind].
  destruct (tsub img_gt img_output); cbn [bind] in *; [|discriminate].
  rewrite Hrs. cbn [bind]. rewrite Hv. cbn [bind]. rewrite Hpw.
  cbn [bind]. rewrite How. cbn [bind].
  unfold tlt, zip_with. rewrite Hss, Hse, broadcast_shapes_refl.
  cbn [bind]. unfold setitem_mask, tabulate. cbn [shape]. rewrite Hso.
  unfold shape_eqb.
  destruct (list_eq_dec Nat.eq_dec [b; 1; h; w] [b; 1; h - 1; w - 1])
    as [E|_]; [|reflexivity].
  injection E as E1 E2. lia.
Qed.

End ArtifactMapShape.

(* ================================================================= *)
(** * The batches of the inference script *)

Section BatchFacts.

Import InferenceBasicVSR.

Context {Name World : Type}.

Variable run_batch : list Name -> World -> result World.

Lemma skipn_nth_error {X : Type} (l : list X) (a : nat) (x : X) :
  nth_error l a = Some x -> skipn a l = x :: skipn (S a) l.
Proof.
  revert l. induction a as [|a IH]; intros [|y l] H; try discriminate.
  - now injection H as ->.
  - simpl in H. now apply IH.
Qed.

Lemma pick_run {X : Type} (l : list X) (a c : nat) :
  (a + c <= List.length l)%nat ->
  flat_map (PyList.pick l) (map (fun j => Z.of_nat (a + j)) (seq 0 c))
  = firstn c (skipn a l).
Proof.
  revert a. induction c as [|c IH]; intros a Hlen; [reflexivity|].
  cbn [seq map flat_map]. rewrite <- seq_shift, map_map.
  destruct (nth_error l a) as [x|] eqn:Hx;
    [|apply nth_error_None in Hx; lia].
  rewrite (skipn_nth_error l a x Hx). cbn [firstn].
  unfold PyList.pick at 1.
  destruct (Z.ltb_spec (Z.of_nat (a + 0)) 0) as [E|_]; [lia|].
  rewrite Nat2Z.id, Nat.add_0_r, Hx. cbn [app]. f_equal.
  rewrite <- (IH (S a)) by lia.
  f_equal. apply map_ext. intros j. f_equal. lia.
Qed.

(** [l[a:b]] inside the list. *)
Lemma getslice_inside {X : Type} (l : list X) (a b : Z) :
  0 <= a < b -> b <= len l ->
  PyList.getslice l a b 1 =
  Ok (firstn (Z.to_nat (b - a)) (skipn (Z.to_nat a) l)).
Proof.
  intros Ha Hb. unfold PyList.getslice, PyList.slice_positions, PyList.adjust.
  cbn [Z.eqb Z.ltb Z.compare].
  destruct (Z.ltb_spec a 0) as [E|_]; [lia|].
  destruct (Z.leb_spec (len l) a) as [E|_]; [lia|].
  destruct (Z.ltb_spec b 0) as [E|_]; [lia|].
  assert (Hb' : (if len l <=? b then len l else b) = b)
    by (destruct (Z.leb_spec (len l) b); lia).
  rewrite Hb'.
  destruct (Z.ltb_spec a b) as [_|E]; [|lia].
  rewrite Z.div_1_r. cbn [bind]. f_equal.
  replace (b - a - 1 + 1) with (b - a) by lia.
  unfold zrange. rewrite map_map.
  rewrite <- (pick_run l (Z.to_nat a) (Z.to_nat (b - a)))
    by (unfold len in Hb; lia).
  f_equal. apply map_ext. intros j. lia.
Qed.

Lemma for_each_map {X : Type} (body : X -> World -> result World)
  (h : X -> list Name) (xs : list X) (w : World) :
  (forall x w', In x xs -> body x w' = run_batch (h x) w') ->
  for_each body xs w = for_each run_batch (map h xs) w.
Proof.
  revert w. induction xs as [|x xs IH]; intros w Hb; [reflexivity|].
  cbn [for_each map]. rewrite (Hb x w (or_introl eq_refl)).
  destruct (run_batch (h x) w) as [w'|]; cbn [bind]; [|reflexivity].
  apply IH. intros y w'' Hy. apply Hb. now right.
Qed.

Lemma firstn_add {X : Type} (a b : nat) (l : list X) :
  firstn (a + b) l = firstn a l ++ firstn b (skipn a l).
Proof.
  revert l. induction a as [|a IH]; intros [|x l]; cbn;
    [reflexivity | reflexivity | now rewrite firstn_nil | now rewrite IH].
Qed.

Lemma concat_runs {X : Type} (l : list X) (k m : nat) :
  List.concat (map (fun j => firstn k (skipn (j * k) l)) (seq 0 m))
  = firstn (m * k) l.
Proof.
  induction m as [|m IH]; [reflexivity|].
  rewrite seq_S, map_app, concat_app, IH. cbn [map List.concat Nat.add].
  rewrite app_nil_r. replace (S m * k)%nat with (m * k + k)%nat by lia.
  now rewrite firstn_add.
Qed.

Lemma batch_count_bounds (n k : nat) :
  (1 <= k)%nat ->
  (n <= (n + k - 1) / k * k /\ ((n + k - 1) / k - 1) * k + 1 <= n
   \/ n = 0)%nat.
Proof.
  intros Hk. destruct n as [|n]; [now right|]. left.
  pose proof (Nat.div_mod (S n + k - 1) k ltac:(lia)) as Hdm.
  pose proof (Nat.mod_upper_bound (S n + k - 1) k ltac:(lia)) as Hm.
  nia.
Qed.

Lemma firstn_min_length {X : Type} (k : nat) (l : list X) :
  firstn (Nat.min k (List.length l)) l = firstn k l.
Proof.
  destruct (Nat.le_ge_cases k (List.length l)) as [H|H].
  - now rewrite Nat.min_l.
  - rewrite Nat.min_r by exact H. rewrite firstn_all.
    symmetry. now apply firstn_all2.
Qed.

Lemma batch_count_Z (n k : nat) :
  (1 <= n)%nat -> (1 <= k)%nat ->
  Z.to_nat ((Z.of_nat n - 0 - 1) / Z.of_nat k + 1) = ((n + k - 1) / k)%nat.
Proof.
  intros Hn Hk. apply Nat2Z.inj. rewrite Nat2Z.inj_div.
  replace (Z.of_nat (n + k - 1)) with (Z.of_nat n - 0 - 1 + 1 * Z.of_nat k)
    by lia.
  rewrite Z.div_add by lia.
  pose proof (Z.div_pos (Z.of_nat n - 0 - 1) (Z.of_nat k)
                ltac:(lia) ltac:(lia)).
  lia.
Qed.

(** The script in terms of the batches it runs. *)
Lemma load_and_infer_runs_batches (l : list Name) (interval : Z)
  (w : World) :
  1 <= interval -> l <> [] ->
  load_and_infer run_batch l interval w =
  for_each run_batch (batches_of l (Z.to_nat interval)) w.
Proof.
  intros Hk Hl.
  assert (Hn : (1 <= List.length l)%nat)
    by (destruct l; [contradiction | simpl; lia]).
  pose proof (batch_count_bounds (List.length l) (Z.to_nat interval)
                ltac:(lia)) as [[Hup Hlo] | H0]; [|lia].
  unfold load_and_infer, batches_of, len.
  set (k := Z.to_nat interval) in *.
  set (m := ((List.length l + k - 1) / k)%nat) in *.
  destruct (Z.leb_spec (Z.of_nat (List.length l)) interval) as [Hle|Hgt].
  - assert (Hm : m = 1%nat).
    { symmetry. apply (Nat.div_unique _ _ _ (List.length l - 1)); lia. }
    rewrite Hm. cbn [seq map for_each Nat.mul skipn].
    rewrite firstn_all2 by lia.
    destruct (run_batch l w); reflexivity.
  - unfold py_range.
    destruct (Z.eqb_spec interval 0) as [E|_]; [lia|].
    destruct (Z.ltb_spec 0 interval) as [_|E]; [|lia].
    destruct (Z.ltb_spec 0 (Z.of_nat (List.length l))) as [_|E]; [|lia].
    cbn [bind].
    rewrite (for_each_map _ (fun idx => firstn k (skipn (Z.to_nat idx) l))).
    + f_equal. unfold zrange. rewrite !map_map.
      replace interval with (Z.of_nat k) at 1 by lia.
      rewrite batch_count_Z by lia. fold m.
      apply map_ext. intros j. do 2 f_equal. lia.
    + intros idx w' Hidx. apply in_map_iff in Hidx.
      destruct Hidx as [j [<- Hj]]. apply in_zrange in Hj.
      assert (Hjm : j * interval < Z.of_nat (List.length l)).
      { replace interval with (Z.of_nat k) in Hj at 1 by lia.
        rewrite <- (Z2Nat.id ((Z.of_nat (List.length l) - 0 - 1)
                              / Z.of_nat k + 1)) in Hj
          by (pose proof (Z.div_pos (Z.of_nat (List.length l) - 0 - 1)
                            (Z.of_nat k) ltac:(lia) ltac:(lia)); lia).
        rewrite batch_count_Z in Hj by lia. fold m in Hj. nia. }
      rewrite getslice_inside; [| nia | unfold len; lia].
      cbn [bind]. f_equal.
      rewrite <- (firstn_min_length k).
      f_equal. rewrite length_skipn. lia.
Qed.

(** With an interval of 1 or more and at least one name, the script runs
    the batches in order; the batches put end to end are the list of names,
    so every frame is handled once and in order; and every batch holds
    between 1 and [interval] names. *)
Theorem batches_cover_every_frame_once (l : list Name) (interval : Z)
  (w : World) :
  1 <= interval -> l <> [] ->
  load_and_infer run_batch l interval w =
    for_each run_batch (batches_of l (Z.to_nat interval)) w /\
  List.concat (batches_of l (Z.to_nat interval)) = l /\
  Forall (fun b => 1 <= len b <= interval)
    (batches_of l (Z.to_nat interval)).
Proof.
  intros Hk Hl. split; [now apply load_and_infer_runs_batches|].
  assert (Hn : (1 <= List.length l)%nat)
    by (destruct l; [contradiction | simpl; lia]).
  pose proof (batch_count_bounds (List.length l) (Z.to_nat interval)
                ltac:(lia)) as [[Hup Hlo] | H0]; [|lia].
  unfold batches_of. split.
  - rewrite concat_runs. now apply firstn_all2.
  - apply Forall_forall. intros b Hb. apply in_map_iff in Hb.
    destruct Hb as [j [<- Hj]]. apply in_seq in Hj.
    unfold len. rewrite length_firstn, length_skipn. nia.
Qed.

(** An interval of 0 ends the script in a ValueError before any batch is
    run, and a negative interval runs no batch at all and ends normally,
    whenever there is at least one name. *)
Theorem nonpositive_interval_runs_nothing (l : list Name) (interval : Z)
  (w : World) :
  interval <= 0 -> l <> [] ->
  load_and_infer run_batch l interval w =
  if interval =? 0 then Raise ValueError else Ok w.
Proof.
  intros Hk Hl.
  assert (Hn : (1 <= List.length l)%nat)
    by (destruct l; [contradiction | simpl; lia]).
  unfold load_and_infer, len.
  destruct (Z.leb_spec (Z.of_nat (List.length l)) interval) as [E|_]; [lia|].
  unfold py_range.
  destruct (Z.eqb_spec interval 0) as [_|Hne]; [reflexivity|].
  destruct (Z.ltb_spec 0 interval) as [E|_]; [lia|].
  destruct (Z.ltb_spec (Z.of_nat (List.length l)) 0) as [E|_]; [lia|].
  reflexivity.
Qed.

End BatchFacts.

(* ================================================================= *)
(** * The further theorems at concrete inputs *)

Section ConcreteEpoch.

Import DataSampler.

Lemma epoch_union_is_enlarged_dataset_witness :
  exists seqs : list (list Z),
    all_rank_sequences (H := ParityRandom) (repeat tt 10) 3 1 5
      (fun _ => 0) = Ok seqs /\
    len seqs = 3 /\
    Permutation (List.concat seqs)
      (map (fun p => p mod len (repeat tt 10))
         (zrange (total_size (mkSampler (repeat tt 10) 3 1 0 4 12)))).
Proof.
  apply (epoch_union_is_enlarged_dataset parity_reseeds parity_draw_perm
           (repeat tt 10) 3 1 1 5 (mkSampler (repeat tt 10) 3 1 0 4 12));
    [lia | lia | reflexivity].
Defined.

Lemma every_sample_is_drawn_witness :
  exists (rk : Z) (l : list Z),
    0 <= rk < 3 /\
    rank_sequence (H := ParityRandom) (repeat tt 10) 3 1 5 (fun _ => 0) rk
      = Ok l /\
    In 7 l.
Proof.
  apply (every_sample_is_drawn parity_reseeds parity_draw_perm);
    [lia | lia | vm_compute; split; [discriminate | reflexivity]
    | reflexivity | reflexivity].
Defined.

Lemma even_split_draws_each_sample_once_witness :
  exists seqs : list (list Z),
    all_rank_sequences (H := ParityRandom) (repeat tt 12) 3 1 4
      (fun _ => 0) = Ok seqs /\
    Permutation (List.concat seqs) (zrange (len (repeat tt 12))) /\
    Forall (fun l => len l * 3 = len (repeat tt 12)) seqs.
Proof.
  apply (even_split_draws_each_sample_once parity_reseeds parity_draw_perm);
    [lia | reflexivity | reflexivity].
Defined.

Lemma rank_beyond_replicas_fails_assertion_witness :
  __iter__ (H := ParityRandom)
    (set_epoch (mkSampler (repeat tt 10) 3 3 0 4 12) 5) 0
  = Raise AssertionError.
Proof.
  apply (rank_beyond_replicas_fails_assertion parity_draw_perm
           (repeat tt 10) 3 3 1);
    [lia | lia | reflexivity | vm_compute; discriminate].
Defined.

Lemma empty_dataset_iterates_empty_witness :
  exists s : EnlargedSampler unit,
    __init__ [] 3 1 1 = Ok s /\
    __len__ s = 0 /\
    __iter__ (H := ParityRandom) (set_epoch s 5) 0 = Ok [].
Proof.
  apply (empty_dataset_iterates_empty parity_draw_perm). lia.
Defined.

End ConcreteEpoch.

Section ConcreteWeights.

Import Flow LossUtil.

Local Open Scope string_scope.

(** A weight with two channels against a loss with three. *)
Lemma weight_shape_mismatch_asserts_witness :
  weight_reduce_loss (qtensor [1; 3]%nat [1; 1; 2])
    (Some (qtensor [1; 2]%nat [1; 0])) "mean" = Raise AssertionError.
Proof.
  apply weight_shape_mismatch_asserts. right.
  exists 2%nat, 3%nat. repeat split; (reflexivity || discriminate).
Defined.

Lemma weight_needs_two_dimensions_witness :
  weight_reduce_loss (qtensor [3]%nat [1; 1; 2])
    (Some (qtensor [3]%nat [1; 0; 1])) "sum" = Raise IndexError.
Proof.
  apply weight_needs_two_dimensions; [reflexivity | vm_compute; lia].
Defined.

Lemma same_shape_weight_is_elementwise_witness :
  exists c : nat,
    size (qtensor [1; 3]%nat [1; 1; 2]) 1 = Ok c /\
    weight_reduce_loss (qtensor [1; 3]%nat [1; 1; 2])
      (Some (qtensor [1; 3]%nat [1; 0; 1])) "none" =
      Ok (mkTensor (shape (qtensor [1; 3]%nat [1; 1; 2]))
            (zip_lists rmul (data (qtensor [1; 3]%nat [1; 1; 2]))
               (data (qtensor [1; 3]%nat [1; 0; 1])))) /\
    weight_reduce_loss (qtensor [1; 3]%nat [1; 1; 2])
      (Some (qtensor [1; 3]%nat [1; 0; 1])) "sum" =
      Ok (mkTensor []
            [sum_list
               (zip_lists rmul (data (qtensor [1; 3]%nat [1; 1; 2]))
                  (data (qtensor [1; 3]%nat [1; 0; 1])))]) /\
    weight_reduce_loss (qtensor [1; 3]%nat [1; 1; 2])
      (Some (qtensor [1; 3]%nat [1; 0; 1])) "mean" =
      Ok (mkTensor []
            [rdiv
               (sum_list
                  (zip_lists rmul (data (qtensor [1; 3]%nat [1; 1; 2]))
                     (data (qtensor [1; 3]%nat [1; 0; 1]))))
               (if (1 <? c)%nat
                then sum_list (data (qtensor [1; 3]%nat [1; 0; 1]))
                else rmul (sum_list (data (qtensor [1; 3]%nat [1; 0; 1])))
                       (rof_nat c))]).
Proof.
  apply same_shape_weight_is_elementwise;
    [reflexivity | reflexivity | reflexivity | vm_compute; lia].
Defined.

(** A ground truth of zeros, an output with residuals from 0 to 2 and an
    EMA output with residual 1 everywhere: the four positions where the
    output is closer to the ground truth are zeroed. *)
Lemma artifact_map_zeroing_rule_witness :
  exists w : Tensor Q,
    get_refined_artifact_map
      (qtensor [1; 1; 3; 3]%nat [0; 0; 0; 0; 0; 0; 0; 0; 0])
      (qtensor [1; 1; 3; 3]%nat [2; 2; 2; 2; 1; 0; 0; 0; 0])
      (qtensor [1; 1; 3; 3]%nat [1; 1; 1; 1; 1; 1; 1; 1; 1]) 3 = Ok w /\
    shape w = shape (qtensor [1; 1; 3; 3]%nat [2; 2; 2; 2; 1; 0; 0; 0; 0]) /\
    forall idx,
      In idx
        (indices
           (shape (qtensor [1; 1; 3; 3]%nat [2; 2; 2; 2; 1; 0; 0; 0; 0]))) ->
      item rzero w idx =
      if rltb
           (item rzero (qtensor [1; 1; 3; 3]%nat [2; 2; 2; 2; 1; 0; 0; 0; 0])
              idx)
           (item rzero (qtensor [1; 1; 3; 3]%nat [1; 1; 1; 1; 1; 1; 1; 1; 1])
              idx)
      then rzero
      else item rzero
             (mkTensor [1; 1; 3; 3]%nat
                [5 # 18; 3 # 4; 11 # 18; 31 # 36; 1; 31 # 36; 11 # 18;
                 3 # 4; 5 # 18]%Q) idx.
Proof.
  apply (artifact_map_zeroing_rule
           (qtensor [1; 1; 3; 3]%nat [0; 0; 0; 0; 0; 0; 0; 0; 0])
           (qtensor [1; 1; 3; 3]%nat [2; 2; 2; 2; 1; 0; 0; 0; 0])
           (qtensor [1; 1; 3; 3]%nat [1; 1; 1; 1; 1; 1; 1; 1; 1]) 3);
    [vm_compute; reflexivity | vm_compute; reflexivity
    | reflexivity | reflexivity].
Defined.

Lemma artifact_map_shape_witness :
  exists m,
    get_refined_artifact_map
      (qtensor [1; 1; 3; 3]%nat [0; 0; 0; 0; 0; 0; 0; 0; 0])
      (qtensor [1; 1; 3; 3]%nat [2; 2; 2; 2; 1; 0; 0; 0; 0])
      (qtensor [1; 1; 3; 3]%nat [1; 1; 1; 1; 1; 1; 1; 1; 1])
      (Z.of_nat (2 * 1 + 1)) = Ok m /\
    shape m = [1; 1; 3; 3]%nat.
Proof.
  apply (artifact_map_shape _ _ _ 1 1 3 3 1)%nat;
    [reflexivity | reflexivity | reflexivity | lia | lia].
Defined.

Lemma artifact_map_even_window_raises_witness :
  get_refined_artifact_map
    (qtensor [1; 1; 3; 3]%nat [0; 0; 0; 0; 0; 0; 0; 0; 0])
    (qtensor [1; 1; 3; 3]%nat [2; 2; 2; 2; 1; 0; 0; 0; 0])
    (qtensor [1; 1; 3; 3]%nat [1; 1; 1; 1; 1; 1; 1; 1; 1])
    (Z.of_nat (2 * 0 + 2)) = Raise IndexError.
Proof.
  apply (artifact_map_even_window_raises _ _ _ 1 1 3 3 0)%nat;
    [reflexivity | reflexivity | reflexivity | lia | lia | lia | lia].
Defined.

End ConcreteWeights.

Section ConcreteBatches.

Import InferenceBasicVSR.

Example five_frames_interval_two :
  load_and_infer record_batch [1; 2; 3; 4; 5]%nat 2 []
  = Ok [[1; 2]; [3; 4]; [5]]%nat.
Proof. reflexivity. Qed.

Lemma batches_cover_every_frame_once_witness :
  load_and_infer record_batch [1; 2; 3; 4; 5]%nat 2 [] =
    for_each record_batch (batches_of [1; 2; 3; 4; 5]%nat (Z.to_nat 2)) [] /\
  List.concat (batches_of [1; 2; 3; 4; 5]%nat (Z.to_nat 2))
    = [1; 2; 3; 4; 5]%nat /\
  Forall (fun b => 1 <= len b <= 2)
    (batches_of [1; 2; 3; 4; 5]%nat (Z.to_nat 2)).
Proof.
  apply batches_cover_every_frame_once; [lia | discriminate].
Defined.

Lemma nonpositive_interval_runs_nothing_witness :
  load_and_infer record_batch [1; 2; 3; 4; 5]%nat (-1) [] =
  if -1 =? 0 then Raise ValueError else Ok [].
Proof.
  apply nonpositive_interval_runs_nothing; [lia | discriminate].
Defined.

End ConcreteBatches.
